(** * Shallow embedding of the gRASPA job tracker (job_tracker.py,
    job_scheduler.py, parameter_matrix.py, batch_manager.py).

    Python strings are [string]; Python ints are [Z] (or [nat] for list
    positions); a Python exception is a value of [exn] carried by the small
    error monad [res].  Statuses are the strings the code compares. *)

From Stdlib Require Import ZArith List String Ascii Bool Lia.
Import ListNotations.
Open Scope string_scope.
Open Scope Z_scope.

(* ------------------------------------------------------------------ *)
(** ** Python string helpers *)

Module PyStr.

(** [c.isspace()] on ASCII. *)
Definition is_ws (c : ascii) : bool :=
  let n := nat_of_ascii c in
  (Nat.eqb n 32 || Nat.eqb n 9 || Nat.eqb n 10 || Nat.eqb n 11
   || Nat.eqb n 12 || Nat.eqb n 13)%bool.

Fixpoint lstrip_l (l : list ascii) : list ascii :=
  match l with
  | c :: r => if is_ws c then lstrip_l r else l
  | [] => []
  end.

(** [s.strip()] *)
Definition strip (s : string) : string :=
  string_of_list_ascii
    (rev (lstrip_l (rev (lstrip_l (list_ascii_of_string s))))).

(** [sub in s] *)
Fixpoint contains (sub s : string) : bool :=
  (String.prefix sub s ||
   match s with
   | EmptyString => false
   | String _ s' => contains sub s'
   end)%bool.

Definition lower_c (c : ascii) : ascii :=
  let n := nat_of_ascii c in
  if (Nat.leb 65 n && Nat.leb n 90)%bool then ascii_of_nat (n + 32) else c.

Definition upper_c (c : ascii) : ascii :=
  let n := nat_of_ascii c in
  if (Nat.leb 97 n && Nat.leb n 122)%bool then ascii_of_nat (n - 32) else c.

Fixpoint smap (f : ascii -> ascii) (s : string) : string :=
  match s with
  | EmptyString => EmptyString
  | String c r => String (f c) (smap f r)
  end.

(** [s.lower()], [s.upper()] on ASCII. *)
Definition lower (s : string) : string := smap lower_c s.
Definition upper (s : string) : string := smap upper_c s.

(** [s.split(sep, 1)] for a one-character separator: [None] when [sep]
    does not occur (the list has a single element), otherwise the part
    before the first [sep] and the remainder. *)
Fixpoint split_first (sep : ascii) (s : string) : option (string * string) :=
  match s with
  | EmptyString => None
  | String c r =>
      if Ascii.eqb c sep then Some (EmptyString, r)
      else match split_first sep r with
           | Some (a, b) => Some (String c a, b)
           | None => None
           end
  end.

(** [sep.join(l)] *)
Fixpoint join (sep : string) (l : list string) : string :=
  match l with
  | [] => ""
  | [x] => x
  | x :: r => x ++ sep ++ join sep r
  end.

(** [s.split(c)] for a one-character separator. *)
Fixpoint split_on (c : ascii) (s : string) : list string :=
  match s with
  | EmptyString => [""]
  | String d r =>
      if Ascii.eqb d c then "" :: split_on c r
      else match split_on c r with
           | x :: xs => String d x :: xs
           | [] => [String d ""]
           end
  end.

(** [s.replace(a, b)] for one-character [a] and [b]. *)
Definition replace_c (a b : ascii) (s : string) : string :=
  smap (fun c => if Ascii.eqb c a then b else c) s.

Definition digit (d : Z) : ascii := ascii_of_nat (48 + Z.to_nat d).

Fixpoint digits_aux (fuel : nat) (n : Z) (acc : string) : string :=
  match fuel with
  | O => acc
  | S f =>
      let acc' := String (digit (n mod 10)) acc in
      if n <? 10 then acc' else digits_aux f (n / 10) acc'
  end.

(** [str(n)] for a Python int. *)
Definition z_str (n : Z) : string :=
  if n <? 0
  then String "-" (digits_aux (S (Z.to_nat (Z.log2 (- n)))) (- n) "")
  else digits_aux (S (Z.to_nat (Z.log2 n))) n "".

(** [os.path.basename(p)] *)
Definition basename (p : string) : string := last (split_on "/" p) "".

(** [s.endswith(suf)] *)
Definition ends_with (suf s : string) : bool :=
  let n := String.length s in
  let m := String.length suf in
  (Nat.leb m n && String.eqb (substring (n - m) m s) suf)%bool.

Definition is_digit (c : ascii) : bool :=
  (Nat.leb 48 (nat_of_ascii c) && Nat.leb (nat_of_ascii c) 57)%bool.

End PyStr.
Import PyStr.

(** Python exceptions that matter to the modelled code. *)
Inductive exn :=
| CalledProcessError   (* subprocess.run(..., check=True) with rc <> 0 *)
| FileNotFoundError    (* the executable is not installed *)
| OSErrorRead          (* open()/read() of a file fails *)
| TypeError
| ValueError
| AssertionError.

Inductive res (A : Type) :=
| Ok (a : A)
| Raise (e : exn).
Arguments Ok {A} a.
Arguments Raise {A} e.

Definition bind {A B} (m : res A) (k : A -> res B) : res B :=
  match m with Ok a => k a | Raise e => Raise e end.

Notation "x <- m ;; k" := (bind m (fun x => k))
  (at level 61, m at next level, right associativity).

Definition path_join (d f : string) : string := d ++ "/" ++ f.

(* ------------------------------------------------------------------ *)
(** ** Filesystem snapshot and configuration *)

(** A file as [os.path.exists] / [open().read()] see it. *)
Inductive file_state :=
| FAbsent
| FUnreadable
| FText (content : string).

Record fsnap := {
  fs_file : string -> file_state;   (* regular files, by path *)
  fs_dir : string -> bool           (* os.path.exists on a directory *)
}.

Definition file_exists (fs : fsnap) (p : string) : bool :=
  match fs_file fs p with FAbsent => false | _ => true end.

(** One entry of [config['workflow']]: only the keys the code reads. *)
Record wstep := {
  ws_name : option string;
  ws_script : option string;
  ws_subdir : option string;
  ws_required : option bool;
  ws_change_dir : bool;
  ws_args : list string
}.

(** [config['workflow']] (empty list when absent or falsy) and
    [config['scripts']] as an ordered dict (key, script). *)
Record wconfig := {
  wc_workflow : list wstep;
  wc_scripts : list (string * string)
}.

Fixpoint mapi_from {A B} (f : nat -> A -> B) (i : nat) (l : list A) : list B :=
  match l with
  | [] => []
  | x :: r => f i x :: mapi_from f (S i) r
  end.

Definition mapi {A B} (f : nat -> A -> B) (l : list A) : list B := mapi_from f 0 l.

(** [step.get('name', f'step_{i+1}')] *)
Definition step_name_at (i : nat) (s : wstep) : string :=
  match ws_name s with
  | Some n => n
  | None => "step_" ++ z_str (Z.of_nat i + 1)
  end.

(** The step list of [_check_partial_completion]:
    [workflow] names if the workflow is non-empty, else the keys of
    [scripts]. *)
Definition workflow_steps (c : wconfig) : list string :=
  match wc_workflow c with
  | [] => map fst (wc_scripts c)
  | w => mapi step_name_at w
  end.

(* ------------------------------------------------------------------ *)
(** ** Partial-completion check (job_tracker.py) *)

(** Outcome of one step of the loop: [continue], [completed_steps.append],
    [failed_steps.append]. *)
Inductive step_class := NotReached | StepCompleted | StepFailed.

Definition classify_step (fs : fsnap) (out_dir step : string) : step_class :=
  let step_dir := path_join out_dir step in
  let exit_status_file := path_join step_dir "exit_status.log" in
  if negb (fs_dir fs step_dir) then NotReached
  else match fs_file fs exit_status_file with
       | FText s => if String.eqb (strip s) "0" then StepCompleted else StepFailed
       | FUnreadable => StepFailed          (* bare except *)
       | FAbsent => StepFailed
       end.

(** The loop: returns (completed_steps, failed_steps). *)
Fixpoint scan_steps (fs : fsnap) (out_dir : string) (steps : list string)
  : list string * list string :=
  match steps with
  | [] => ([], [])
  | s :: r =>
      let '(c, f) := scan_steps fs out_dir r in
      match classify_step fs out_dir s with
      | NotReached => (c, f)
      | StepCompleted => (s :: c, f)
      | StepFailed => (c, s :: f)
      end
  end.

Definition partial_result (completed : list string) (n : nat) : string :=
  if (negb (Nat.eqb (List.length completed) 0) && Nat.ltb (List.length completed) n)%bool
  then "PARTIALLY_COMPLETE"
  else if Nat.eqb (List.length completed) n then "COMPLETED"
  else "FAILED".

(** [JobTracker._check_partial_completion(batch_id, batch_output_dir)] *)
Definition check_partial_completion (cfg : wconfig) (fs : fsnap)
  (batch_output_dir : string) : string :=
  let steps := workflow_steps cfg in
  match steps with
  | [] => "FAILED"
  | _ => let '(completed, _) := scan_steps fs batch_output_dir steps in
         partial_result completed (List.length steps)
  end.

(** [JobTracker._check_parameter_partial_completion(batch_id, param_id,
    sub_job_output_dir)]: the same loop over the sub-job directory. *)
Definition check_parameter_partial_completion (cfg : wconfig) (fs : fsnap)
  (sub_job_output_dir : string) : string :=
  let steps := workflow_steps cfg in
  match steps with
  | [] => "FAILED"
  | _ => let '(completed, _) := scan_steps fs sub_job_output_dir steps in
         if (negb (Nat.eqb (List.length completed) 0)
             && Nat.ltb (List.length completed) (List.length steps))%bool
         then "PARTIALLY_COMPLETE"
         else if Nat.eqb (List.length completed) (List.length steps) then "COMPLETED"
         else "FAILED"
  end.

(* ------------------------------------------------------------------ *)
(** ** Batch splitting (batch_manager.py) *)

(** [files[a:b]] for 0 <= a <= b. *)
Definition slice {A} (l : list A) (a b : nat) : list A :=
  firstn (b - a) (skipn a l).

(** [math.ceil(num_files / batch_size)] on non-negative ints (exact for
    values below 2^53, where the float division is exact enough). *)
Definition ceil_div (n d : nat) : nat := (n + d - 1) / d.

(** [BatchManager._split_into_batches(files)]; the CSV writes and
    [os.makedirs] are side effects on disk that do not change the result. *)
Definition split_into_batches {A} (batch_size : nat) (files : list A) : list (list A) :=
  let num_files := List.length files in
  let num_batches := ceil_div num_files batch_size in
  map (fun i => slice files (i * batch_size) (Nat.min ((i + 1) * batch_size) num_files))
      (seq 0 num_batches).

(* ------------------------------------------------------------------ *)
(** ** Parameter matrix (parameter_matrix.py) *)

(** Scalars that occur as axis values; [str(value)] below. *)
Inductive scalar :=
| SInt (z : Z)
| SIntegralFloat (z : Z)   (* a float with an integral value, |z| < 10^16 *)
| SStr (s : string)
| SBool (b : bool).

(** Python's [str] (for floats, [repr]: an integral float below 10^16
    prints as the integer followed by [.0]). *)
Definition py_str (v : scalar) : string :=
  match v with
  | SInt z => z_str z
  | SIntegralFloat z => z_str z ++ ".0"
  | SStr s => s
  | SBool b => if b then "True" else "False"
  end.

Record combination := {
  param_id : nat;
  cname : string;
  parameters : list (string * scalar)
}.

(** [ParameterMatrix._generate_param_name(param_dict)] *)
Definition name_part (kv : string * scalar) : string :=
  let '(key, value) := kv in
  if String.eqb (lower key) "temperature" then "T" ++ py_str value
  else if String.eqb (lower key) "pressure" then "P" ++ py_str value
  else if contains "co2" (lower key) then "CO2" ++ py_str value
  else if contains "n2" (lower key) then "N2" ++ py_str value
  else let short_key := if Nat.ltb 3 (String.length key)
                        then upper (substring 0 3 key) else upper key in
       short_key ++ py_str value.

Definition generate_param_name (param_dict : list (string * scalar)) : string :=
  match map name_part param_dict with
  | [] => "default"
  | parts => join "_" parts
  end.

(** [itertools.product] over the argument lists *)
Fixpoint product {A} (ls : list (list A)) : list (list A) :=
  match ls with
  | [] => [[]]
  | l :: r => flat_map (fun x => map (fun t => x :: t) (product r)) l
  end.

Fixpoint zip {A B} (a : list A) (b : list B) : list (A * B) :=
  match a, b with
  | x :: a', y :: b' => (x, y) :: zip a' b'
  | _, _ => []
  end.

(** [parameter_matrix] section: [parameters] (axes, an ordered dict),
    [combinations] mode, [custom_combinations] (name and parameters;
    [None] for a missing name). *)
Record pm_config := {
  pm_parameters : list (string * list scalar);
  pm_mode : string;
  pm_custom : list (option string * list (string * scalar))
}.

(** [ParameterMatrix._generate_combinations()] *)
Definition generate_combinations (c : pm_config) : list combination :=
  match pm_parameters c with
  | [] => [{| param_id := 0; cname := "default"; parameters := [] |}]
  | params =>
      if String.eqb (pm_mode c) "all" then
        let param_keys := map fst params in
        let param_values := map snd params in
        mapi (fun i combo =>
                let param_dict := zip param_keys combo in
                {| param_id := i; cname := generate_param_name param_dict;
                   parameters := param_dict |})
             (product param_values)
      else if String.eqb (pm_mode c) "custom" then
        mapi (fun i cc =>
                {| param_id := i;
                   cname := match fst cc with
                            | Some n => n
                            | None => "custom_" ++ z_str (Z.of_nat i) end;
                   parameters := snd cc |})
             (pm_custom c)
      else []
  end.

(** [ParameterMatrix.get_sub_job_name(batch_id, param_id)] *)
Definition get_sub_job_name (combos : list combination) (batch_id : Z) (pid : nat)
  : string :=
  match nth_error combos pid with
  | Some c => "B" ++ z_str batch_id ++ "_" ++ cname c
  | None => "B" ++ z_str batch_id ++ "_param_" ++ z_str (Z.of_nat pid)
  end.

(** The parsing in [_get_running_jobs]:
    [if '_' not in param_id: continue; param_name = param_id.split('_', 1)[1]] *)
Definition param_name_of (param_combo_id : string) : option string :=
  match split_first "_" param_combo_id with
  | Some (_, rest) => Some rest
  | None => None
  end.

(* ------------------------------------------------------------------ *)
(** ** Workflow step generation (job_scheduler.py)

    The generator builds the script text by concatenation.  We generate
    the same script as a list of commands, one constructor per emitted
    command line, and give the commands the bash meaning they have for
    [$?], shell variables, the current directory and the exit-status
    files. *)

Module Script.

#[local] Set Warnings "-register-all".
Inductive cmd :=
| CComment                            (* "# ..." : no effect on $? *)
| CEcho                               (* echo '...' (also >> failed_batches.txt) *)
| CMkdir (d : string)                 (* mkdir -p d *)
| CCp                                 (* cp ... / chmod +x ... / rm -f ... *)
| CCd (d : string)                    (* cd d *)
| CCdBack                             (* cd - *)
| CRun (inv : string)                 (* bash ./x ... / python x ... / python -m x ... *)
| CAssignStatus (v : string)          (* v=$? *)
| CAssignVar (v w : string)           (* v=$w *)
| CWriteVar (v f : string)            (* echo $v > f *)
| CWriteStatus (f : string)           (* echo $? > f *)
| CIfNe0 (v : string) (body : list cmd)   (* if [ $v -ne 0 ]; then body fi *)
| CIfEq0 (v : string) (body : list cmd)   (* if [ $v -eq 0 ]; then body fi *)
| CIfDone (f : string) (thn els : list cmd)
    (* if [ -f f ] && [ "$(cat f)" = "0" ]; then thn else els fi *)
| CExitVar (v : string)               (* exit $v *)
| CExit (n : Z).                      (* exit n *)

Inductive stype := Bash | Python.

(** The inputs of [_generate_bash_step] that come from configuration and
    disk: whether [{step}_input_template] names an existing template
    (a [cp] line) and whether [run_file_templates] has a [{step}_input]
    entry with a [file_path] (an extra positional argument).  Templates
    that declare [variables] are not modelled: for them the generator
    emits [if grep ...; then] lines without a closing [fi]. *)
Record step_env := {
  se_template_copy : bool;
  se_template_arg : bool
}.

(** [_generate_bash_step] *)
Definition gen_bash_step (se : step_env) (script_file step_name : string)
  (batch_id : Z) (input_file output_dir : string) : list cmd :=
  let local_script := step_name ++ "_" ++ basename script_file in
  ((if se_template_copy se then [CCp] else [])
  ++ [CComment; CCd output_dir; CCp; CCp]
  ++ [CComment; CComment;
      CRun ("bash ./" ++ local_script ++ " " ++ z_str batch_id ++ " " ++ input_file
            ++ " " ++ output_dir
            ++ (if se_template_arg se
                then " $TEMPLATE_" ++ upper step_name ++ "_INPUT" else ""));
      CAssignStatus "simulation_status";
      CComment;
      CWriteVar "simulation_status" "exit_status.log";
      CAssignStatus "script_status";
      CIfEq0 "script_status" [CComment; CCp];
      CCdBack]
  ++ (if contains "mps_run" script_file
      then [CComment; CAssignVar "simulation_status" "script_status"]
      else [CExitVar "script_status"]))%list.

Definition is_file_ref (script_path : string) : bool :=
  (contains "/" script_path || ends_with ".py" script_path)%bool.

(** [_generate_python_step] *)
Definition gen_python_step (se : step_env) (step : wstep) (script_path step_name : string)
  (batch_id : Z) (input_file output_dir : string) : list cmd :=
  let args := match ws_args step with
              | [] => app [input_file; output_dir]
                          (if se_template_arg se
                           then ["$TEMPLATE_" ++ upper step_name ++ "_INPUT"] else [])
              | a => a
              end in
  let args_str := join " " (z_str batch_id :: args) in
  if ws_change_dir step then
    if is_file_ref script_path then
      [CComment; CCd output_dir; CCp; CComment;
       CRun ("python ./" ++ step_name ++ "_" ++ basename script_path ++ " " ++ args_str);
       CAssignStatus "script_status";
       CIfEq0 "script_status" [CComment; CCp];
       CCdBack]
    else
      [CCd output_dir;
       CRun ("python -m " ++ script_path ++ " " ++ args_str);
       CAssignStatus "script_status";
       CCdBack]
      ++ (if String.eqb step_name "simulation" then [CComment]
          else [CExitVar "script_status"])%list
  else
    if is_file_ref script_path
    then [CRun ("python " ++ script_path ++ " " ++ args_str)]
    else [CRun ("python -m " ++ script_path ++ " " ++ args_str)].

(** The inputs of [_generate_workflow_steps]: [self.scripts],
    [resolve_installed_script_and_type] (None for an unresolvable
    reference) and the per-step template environment. *)
Record gen_env := {
  ge_scripts : list (string * string);
  ge_resolve : string -> option (string * stype);
  ge_step_env : string -> step_env
}.

Fixpoint lookup {A} (k : string) (l : list (string * A)) : option A :=
  match l with
  | [] => None
  | (k', v) :: r => if String.eqb k k' then Some v else lookup k r
  end.

(** The default workflow built from [self.scripts] when [workflow] is
    absent: one required step per configured script. *)
Definition default_workflow (scripts : list (string * string)) : list wstep :=
  map (fun '(n, p) => {| ws_name := Some n; ws_script := Some p; ws_subdir := Some n;
                         ws_required := Some true; ws_change_dir := false;
                         ws_args := [] |})
      (filter (fun '(_, p) => negb (String.eqb p "")) scripts).

(** The body of the loop of [_generate_workflow_steps] for step [i];
    [prev] is [prev_step_output_dir].  Returns the emitted commands and
    the new [prev], or [ValueError] for an unresolvable script. *)
Definition gen_one_step (ge : gen_env) (batch_id : Z) (output_dir file_list : string)
  (prev : option string) (i : nat) (step : wstep)
  : res (list cmd * option string) :=
  let step_name := step_name_at i step in
  let script_path := match ws_script step with
                     | Some s => s
                     | None => match lookup step_name (ge_scripts ge) with
                               | Some s => s | None => "" end
                     end in
  let output_subdir := match ws_subdir step with Some d => d | None => step_name end in
  let required := match ws_required step with Some b => b | None => true end in
  if String.eqb script_path "" then Ok ([], prev)
  else
  let step_output_dir := path_join output_dir output_subdir in
  let step_input := match prev with None => file_list | Some d => d end in
  let exit_status_file := path_join step_output_dir "exit_status.log" in
  match ge_resolve ge script_path with
  | None => Raise ValueError
  | Some (script_file, script_type) =>
      let se := ge_step_env ge step_name in
      let body := match script_type with
                  | Bash => gen_bash_step se script_file step_name batch_id
                              step_input step_output_dir
                  | Python => gen_python_step se step script_path step_name batch_id
                                step_input step_output_dir
                  end in
      let step_var_name := lower (replace_c "-" "_" step_name) ++ "_status" in
      let capture := if contains "mps_run" script_path
                     then [CComment; CAssignVar step_var_name step_var_name]
                     else [CAssignStatus step_var_name] in
      let check := [CIfNe0 step_var_name
                      (CEcho :: (if required then [CEcho; CExit 1] else [CComment]))] in
      let write := if (negb (String.eqb step_name "simulation")
                       && negb (contains "mps_run" script_path))%bool
                   then [CComment; CWriteStatus exit_status_file] else [] in
      let tail := if String.eqb step_name "simulation" then [CComment; CEcho] else [] in
      Ok (([CEcho; CMkdir step_output_dir; CComment;
           CIfDone exit_status_file [CEcho] ((CEcho :: body) ++ capture ++ check ++ write)]
          ++ tail)%list,
          Some step_output_dir)
  end.

Fixpoint gen_steps_from (ge : gen_env) (batch_id : Z) (output_dir file_list : string)
  (prev : option string) (i : nat) (w : list wstep) : res (list cmd) :=
  match w with
  | [] => Ok []
  | step :: r =>
      p <- gen_one_step ge batch_id output_dir file_list prev i step ;;
      rest <- gen_steps_from ge batch_id output_dir file_list (snd p) (S i) r ;;
      Ok (fst p ++ rest)%list
  end.

(** [JobScheduler._generate_workflow_steps(batch_id, output_dir, file_list)] *)
Definition generate_workflow_steps (ge : gen_env) (workflow : list wstep)
  (batch_id : Z) (output_dir file_list : string) : res (list cmd) :=
  let w := match workflow with [] => default_workflow (ge_scripts ge) | w => w end in
  gen_steps_from ge batch_id output_dir file_list None 0 w.

(** *** Bash meaning of the commands *)

Record sh := {
  sh_status : Z;                        (* $? *)
  sh_vars : list (string * Z);          (* shell variables holding exit codes *)
  sh_files : list (string * string);    (* written files and their text *)
  sh_cwd : string;
  sh_oldpwd : string
}.

Inductive outcome := Running (s : sh) | Exited (code : Z) (s : sh).

Definition resolve (s : sh) (f : string) : string :=
  match f with
  | String "/" _ => f
  | _ => path_join (sh_cwd s) f
  end.

Definition set_status (s : sh) (z : Z) : sh :=
  {| sh_status := z; sh_vars := sh_vars s; sh_files := sh_files s;
     sh_cwd := sh_cwd s; sh_oldpwd := sh_oldpwd s |}.

Definition set_var (s : sh) (v : string) (z : option Z) : sh :=
  {| sh_status := 0;
     sh_vars := match z with Some z => (v, z) :: sh_vars s | None => sh_vars s end;
     sh_files := sh_files s; sh_cwd := sh_cwd s; sh_oldpwd := sh_oldpwd s |}.

Definition write_file (s : sh) (f txt : string) : sh :=
  {| sh_status := 0; sh_vars := sh_vars s; sh_files := (resolve s f, txt) :: sh_files s;
     sh_cwd := sh_cwd s; sh_oldpwd := sh_oldpwd s |}.

Definition cd (s : sh) (d : string) : sh :=
  {| sh_status := 0; sh_vars := sh_vars s; sh_files := sh_files s;
     sh_cwd := d; sh_oldpwd := sh_cwd s |}.

Definition var (s : sh) (v : string) : option Z := lookup v (sh_vars s).

(** [$v] in text: the empty string when unset. *)
Definition var_text (s : sh) (v : string) : string :=
  match var s v with Some z => z_str z | None => "" end.

(** Execution; [code_of] gives the exit code of each external
    invocation, [init_file] the exit-status files present on disk
    before the job started. *)
Section Exec.
Variable code_of : string -> Z.
Variable init_file : string -> option string.

Definition read_file (s : sh) (f : string) : option string :=
  match lookup f (sh_files s) with
  | Some t => Some t
  | None => init_file f
  end.

Fixpoint exec_cmd (c : cmd) (s : sh) {struct c} : outcome :=
  let exec_list := fix exec_list (l : list cmd) (s : sh) : outcome :=
      match l with
      | [] => Running s
      | c :: r => match exec_cmd c s with
                  | Running s' => exec_list r s'
                  | Exited z s' => Exited z s'
                  end
      end in
  match c with
  | CComment => Running s
  | CEcho | CCp => Running (set_status s 0)
  | CMkdir _ => Running (set_status s 0)
  | CCd d => Running (cd s d)
  | CCdBack => Running (cd s (sh_oldpwd s))
  | CRun inv => Running (set_status s (code_of inv))
  | CAssignStatus v => Running (set_var s v (Some (sh_status s)))
  | CAssignVar v w => Running (set_var s v (var s w))
  | CWriteVar v f => Running (write_file s f (var_text s v))
  | CWriteStatus f => Running (write_file s f (z_str (sh_status s)))
  | CIfNe0 v body =>
      match var s v with
      | Some z => if negb (z =? 0) then exec_list body s else Running (set_status s 0)
      | None => Running (set_status s 0)    (* [ "" -ne 0 ] fails: condition false *)
      end
  | CIfEq0 v body =>
      match var s v with
      | Some z => if z =? 0 then exec_list body s else Running (set_status s 0)
      | None => Running (set_status s 0)
      end
  | CIfDone f thn els =>
      match read_file s (resolve s f) with
      | Some t => if String.eqb t "0" then exec_list thn s else exec_list els s
      | None => exec_list els s
      end
  | CExitVar v => Exited (match var s v with Some z => z | None => 0 end) s
  | CExit n => Exited n s
  end.

Fixpoint exec_list (l : list cmd) (s : sh) : outcome :=
  match l with
  | [] => Running s
  | c :: r => match exec_cmd c s with
              | Running s' => exec_list r s'
              | Exited z s' => Exited z s'
              end
  end.

End Exec.

Definition sh_init (cwd : string) : sh :=
  {| sh_status := 0; sh_vars := []; sh_files := []; sh_cwd := cwd; sh_oldpwd := cwd |}.

Definition final_state (o : outcome) : sh :=
  match o with Running s => s | Exited _ s => s end.

End Script.

(* ------------------------------------------------------------------ *)
(** ** Scheduler gateway (job_scheduler.py) *)

(** What one [subprocess.run([...])] does: the command runs and exits
    with [rc] printing [out], or the executable is missing
    ([FileNotFoundError] is raised by [subprocess.run]). *)
Inductive proc :=
| PDone (rc : Z) (out : string)
| PNotFound.

(** A snapshot of the scheduler command line, per invocation. *)
Record sched := {
  sq_list : proc;                 (* squeue -h -o %i *)
  sq_job : string -> proc;        (* squeue --job J --format=%T --noheader *)
  sacct_job : string -> proc;     (* sacct -j J --format=State --noheader --parsable2 *)
  sbatch : string -> proc         (* sbatch SCRIPT *)
}.

(** [subprocess.run(..., check=True)]: stdout, or the exception. *)
Definition run_checked (p : proc) : res string :=
  match p with
  | PDone rc out => if rc =? 0 then Ok out else Raise CalledProcessError
  | PNotFound => Raise FileNotFoundError
  end.

(** [try: ... except subprocess.CalledProcessError: return d] *)
Definition catch_cpe {A} (d : A) (m : res A) : res A :=
  match m with
  | Raise CalledProcessError => Ok d
  | _ => m
  end.

(** [for state in sacct_output.split('\n'): if state and '.' not in state: return state] *)
Fixpoint first_job_state (lines : list string) : option string :=
  match lines with
  | [] => None
  | l :: r => if (negb (String.eqb l "") && negb (contains "." l))%bool
              then Some l else first_job_state r
  end.

(** [JobScheduler.get_job_status(job_id, batch_output_dir)] *)
Definition get_job_status (sc : sched) (fs : fsnap) (job_id : string)
  (batch_output_dir : option string) : res string :=
  let marker :=
    match batch_output_dir with
    | Some d => match fs_file fs (path_join d "exit_status.log") with
                | FText st => Some (Ok (if String.eqb (strip st) "0" then "COMPLETED" else "FAILED"))
                | FUnreadable => Some (Raise OSErrorRead)   (* open() outside the try *)
                | FAbsent => None
                end
    | None => None
    end in
  match marker with
  | Some r => r
  | None =>
    if String.eqb job_id "dry-run" then Ok "DRY-RUN" else
    catch_cpe "UNKNOWN"
      (out <- run_checked (sq_job sc job_id) ;;
       let output := strip out in
       if negb (String.eqb output "") then Ok output
       else sacct_out <- run_checked (sacct_job sc job_id) ;;
            let sacct_output := strip sacct_out in
            if negb (String.eqb sacct_output "") then
              match first_job_state (split_on "010" sacct_output) with
              | Some st => Ok st
              | None => Ok "UNKNOWN"
              end
            else Ok "UNKNOWN")
  end.

(** Queued job ids as a duplicate-free list (a Python set). *)
Definition set_add (x : string) (l : list string) : list string :=
  if existsb (String.eqb x) l then l else l ++ [x].

(** [JobScheduler.get_queue_jobs()] for the default [slurm] scheduler type:
    [subprocess.run] without [check], errors caught as
    [(subprocess.SubprocessError, FileNotFoundError)]. *)
Definition get_queue_jobs (sc : sched) : res (list string) :=
  match sq_list sc with
  | PNotFound => Ok []
  | PDone rc out =>
      if rc =? 0 then
        Ok (fold_left (fun acc line => if String.eqb (strip line) "" then acc
                                       else set_add (strip line) acc)
                      (split_on "010" (strip out)) [])
      else Ok []
  end.

(** The leading run of decimal digits of [s] ([\d+] anchored at the start). *)
Fixpoint take_digits (s : string) : string :=
  match s with
  | String c r => if is_digit c then String c (take_digits r) else EmptyString
  | EmptyString => EmptyString
  end.

(** [re.search(pat + r"(\d+)", s).group(1)] for a literal [pat]: the
    leftmost position where [pat] followed by at least one digit matches. *)
Fixpoint search_digits_after (pat s : string) : option string :=
  let here := if String.prefix pat s
              then let d := take_digits (substring (String.length pat)
                                           (String.length s) s) in
                   if String.eqb d "" then None else Some d
              else None in
  match here with
  | Some d => Some d
  | None => match s with
            | EmptyString => None
            | String _ r => search_digits_after pat r
            end
  end.

(** [JobScheduler.submit_job(script_path, dry_run, batch_id)];
    [script_exists] is [os.path.exists(script_path)].  The bookkeeping on
    success ([batch_job_map], [update_job_status_csv]) writes files of
    its own and does not change the returned id. *)
Definition submit_job (sc : sched) (script_path : option string)
  (script_exists : bool) (dry_run : bool) : res (option string) :=
  match script_path with
  | None => Ok None
  | Some path =>
    if negb script_exists then Ok None
    else if dry_run then Ok (Some "dry-run")
    else catch_cpe None
      (out <- run_checked (sbatch sc path) ;;
       let output := strip out in
       if contains "Submitted batch job" output then
         match search_digits_after "Submitted batch job " output with
         | Some j => Ok (Some j)
         | None => Ok (search_digits_after "" output)
         end
       else Ok None)
  end.

(* ------------------------------------------------------------------ *)
(** ** Job status table and tracker state (job_tracker.py) *)

(** One row of [self.job_status]; [None] is a missing value (NaN/NaT).
    Job ids are kept as the strings the code compares. *)
Record row := {
  r_batch : Z;
  r_job : option string;
  r_param : option string;
  r_status : string;
  r_sub : option Z;
  r_comp : option Z;
  r_stage : option string
}.

Record tstate := {
  t_rows : list row;           (* self.job_status *)
  t_failed : list Z;           (* self.failed_batches *)
  t_store : list row;          (* job_status.csv as last written *)
  t_writes : nat;              (* number of writes of job_status.csv *)
  t_failed_file : list Z       (* failed_batches.txt as last written *)
}.

(** What the tracker reads from configuration and disk.  [tc_patch] is
    the parameter-matrix pass at the end of [_get_running_jobs]
    (squeue by job name); it runs only when the matrix is enabled and is
    left arbitrary on the rows: it returns the new rows, the job ids it
    adds to [running_jobs] and whether it saved the table.  [tc_running_stage] is the progress-log scan of
    [_get_current_workflow_stage] for a running batch. *)
Record tconfig := {
  tc_results_dir : string;
  tc_wf : wconfig;
  tc_combos : list combination;
  tc_matrix : bool;
  tc_cap : Z;                                  (* max_concurrent_jobs *)
  tc_resubmit : bool;                          (* resubmit_failed *)
  tc_num_batches : Z;                          (* batch_manager.get_num_batches() *)
  tc_range : option (option Z * option Z);     (* batch_range *)
  tc_batch_files : Z -> option (list string);  (* get_batch_files; None: no batch record *)
  tc_create_script : Z -> res (option string); (* create_job_script *)
  tc_scripts_dir : string;
  tc_script_exists : string -> bool;
  tc_running_stage : Z -> string;
  tc_patch : list row -> res (list row * list (option string) * bool)
}.

Definition with_rows (st : tstate) (rs : list row) : tstate :=
  {| t_rows := rs; t_failed := t_failed st; t_store := t_store st;
     t_writes := t_writes st; t_failed_file := t_failed_file st |}.

Definition add_failed (st : tstate) (b : Z) : tstate :=
  {| t_rows := t_rows st;
     t_failed := if existsb (Z.eqb b) (t_failed st) then t_failed st else t_failed st ++ [b];
     t_store := t_store st; t_writes := t_writes st; t_failed_file := t_failed_file st |}.

Definition remove_failed (st : tstate) (b : Z) : tstate :=
  {| t_rows := t_rows st; t_failed := filter (fun x => negb (Z.eqb x b)) (t_failed st);
     t_store := t_store st; t_writes := t_writes st; t_failed_file := t_failed_file st |}.

(** [_save_job_status()] (the lock is acquired). *)
Definition save_job_status (st : tstate) : tstate :=
  {| t_rows := t_rows st; t_failed := t_failed st; t_store := t_rows st;
     t_writes := S (t_writes st); t_failed_file := t_failed_file st |}.

(** [_save_failed_batches()] *)
Definition save_failed_batches (st : tstate) : tstate :=
  {| t_rows := t_rows st; t_failed := t_failed st; t_store := t_store st;
     t_writes := t_writes st; t_failed_file := t_failed st |}.

Definition set_status (s : string) (r : row) : row :=
  {| r_batch := r_batch r; r_job := r_job r; r_param := r_param r; r_status := s;
     r_sub := r_sub r; r_comp := r_comp r; r_stage := r_stage r |}.
Definition set_stage (s : string) (r : row) : row :=
  {| r_batch := r_batch r; r_job := r_job r; r_param := r_param r; r_status := r_status r;
     r_sub := r_sub r; r_comp := r_comp r; r_stage := Some s |}.
Definition set_comp (t : option Z) (r : row) : row :=
  {| r_batch := r_batch r; r_job := r_job r; r_param := r_param r; r_status := r_status r;
     r_sub := r_sub r; r_comp := t; r_stage := r_stage r |}.

(** [self.job_status.loc[mask, col] = v] *)
Definition update_where (m : row -> bool) (f : row -> row) (rs : list row) : list row :=
  map (fun r => if m r then f r else r) rs.

Definition in_list (s : string) (l : list string) : bool := existsb (String.eqb s) l.

Definition opt_eqb (a b : option string) : bool :=
  match a, b with
  | Some x, Some y => String.eqb x y
  | None, None => true
  | _, _ => false
  end.

(** [{combo['name']: combo for combo in ...}.get(name)]: the last
    combination with that name wins. *)
Definition combo_by_name (combos : list combination) (n : string) : option combination :=
  find (fun c => String.eqb (cname c) n) (rev combos).

(** [ParameterMatrix.get_sub_job_output_dir(batch_id, param_id)] *)
Definition get_sub_job_output_dir (cfg : tconfig) (b : Z) (pid : nat) : string :=
  path_join (tc_results_dir cfg) (get_sub_job_name (tc_combos cfg) b pid).

Definition batch_dir (cfg : tconfig) (b : Z) : string :=
  path_join (tc_results_dir cfg) ("batch_" ++ z_str b).

(** [JobScheduler._get_current_workflow_stage(batch_id, status)] *)
Definition get_current_workflow_stage (cfg : tconfig) (fs : fsnap) (b : Z) (status : string)
  : string :=
  if in_list status ["PENDING"; "DRY-RUN"] then lower status
  else if in_list status ["COMPLETED"; "CANCELLED"; "TIMEOUT"; "UNKNOWN"] then lower status
  else if String.eqb status "FAILED" then "failed"
  else if String.eqb status "NEVER_SUBMITTED" then "never_submitted"
  else if String.eqb status "PARTIALLY_COMPLETE" then
    let d := batch_dir cfg b in
    if negb (fs_dir fs d) then "partially_complete"
    else
      let steps := match workflow_steps (tc_wf cfg) with
                   | [] => ["partial_charge"; "simulation"; "analysis"]
                   | s => s end in
      let last_ok := fold_left (fun acc s =>
                       match classify_step fs d s with
                       | StepCompleted => Some s
                       | _ => acc end) steps None in
      match last_ok with
      | Some s => if String.eqb s "" then "partially_complete"
                  else "partially_complete (completed: " ++ s ++ ")"
      | None => "partially_complete"
      end
  else tc_running_stage cfg b.

(** *** The reconciliation pass [_get_running_jobs] *)

Record pass_acc := {
  pa_st : tstate;
  pa_running : list (option string);   (* running_jobs *)
  pa_changes : bool                    (* status_changes *)
}.

Definition running_add (j : option string) (l : list (option string)) : list (option string) :=
  if existsb (opt_eqb j) l then l else l ++ [j].

(** The row mask of the loop body. *)
Definition row_mask (job : option string) (b : Z) (param : option string) (r : row) : bool :=
  let job_match := opt_eqb (r_job r) job in
  let param_match :=
    match param with
    | None => match r_param r with None => true | Some p => String.eqb p "NA" end
    | Some p => if String.eqb p "NA"
                then match r_param r with None => true | Some q => String.eqb q "NA" end
                else opt_eqb (r_param r) (Some p)
    end in
  (job_match && Z.eqb (r_batch r) b && param_match)%bool.

(** The output directory of a checked row: [None] for [continue],
    [TypeError] for a missing [param_combination_id] (['_' in nan]). *)
Definition row_output_dir (cfg : tconfig) (b : Z) (param : option string)
  : res (option string) :=
  match param with
  | None => Raise TypeError
  | Some p =>
      if String.eqb p "NA" then Ok (Some (batch_dir cfg b))
      else match param_name_of p with
           | None => Ok None
           | Some name => match combo_by_name (tc_combos cfg) name with
                          | None => Ok None
                          | Some c => Ok (Some (get_sub_job_output_dir cfg b (param_id c)))
                          end
           end
  end.

(** The new status of a row that has left the queue (or has no job id). *)
Definition status_off_queue (cfg : tconfig) (fs : fsnap) (out_dir : string)
  (b : Z) (param : option string) (st : tstate) : res (string * tstate) :=
  let partial := if opt_eqb param (Some "NA")
                 then check_partial_completion (tc_wf cfg) fs out_dir
                 else check_parameter_partial_completion (tc_wf cfg) fs out_dir in
  let after_partial :=
    if String.eqb partial "PARTIALLY_COMPLETE" then Ok ("PARTIALLY_COMPLETE", st)
    else Ok ("FAILED", add_failed st b) in
  match fs_file fs (path_join out_dir "exit_status.log") with
  | FText s => if String.eqb (strip s) "0" then Ok ("COMPLETED", st) else after_partial
  | FUnreadable => Raise OSErrorRead
  | FAbsent => after_partial
  end.

(** One iteration of [for idx, job in jobs_to_check.iterrows()]; [job]
    is the row as it was when [jobs_to_check] was taken. *)
Definition check_row (cfg : tconfig) (sc : sched) (fs : fsnap) (now : Z)
  (queue : list string) (job : row) (acc : pass_acc) : res pass_acc :=
  let job_id := r_job job in
  let b := r_batch job in
  let param := r_param job in
  let current_status := r_status job in
  let mask := row_mask job_id b param in
  od <- row_output_dir cfg b param ;;
  match od with
  | None => Ok acc
  | Some out_dir =>
  let off_queue := match job_id with
                   | None => true
                   | Some j => (negb (String.eqb j "dry-run") && negb (in_list j queue))%bool
                   end in
  ns_st <- (if off_queue then status_off_queue cfg fs out_dir b param (pa_st acc)
            else match job_id with
                 | Some j => ns <- get_job_status sc fs j (Some out_dir) ;; Ok (ns, pa_st acc)
                 | None => Raise TypeError
                 end) ;;
  let '(new_status, st) := ns_st in
  let rows := t_rows st in
  (* if any(mask): status and workflow stage *)
  let '(rows, changes) :=
    if existsb mask rows then
      let '(rows, changes) :=
        if negb (String.eqb current_status new_status)
        then (update_where mask (set_status new_status) rows, true)
        else (rows, pa_changes acc) in
      if in_list new_status ["RUNNING"; "PENDING"; "COMPLETED"; "FAILED"; "PARTIALLY_COMPLETE"]
      then
        let workflow_stage := get_current_workflow_stage cfg fs b new_status in
        let current_workflow_stage :=
          match find mask rows with
          | Some r => match r_stage r with Some s => s | None => "" end
          | None => "" end in
        if negb (String.eqb workflow_stage current_workflow_stage)
        then (update_where mask (set_stage workflow_stage) rows, true)
        else (rows, changes)
      else (rows, changes)
    else (rows, pa_changes acc) in
  let st := with_rows st rows in
  if in_list new_status ["RUNNING"; "PENDING"] then
    Ok {| pa_st := st; pa_running := running_add job_id (pa_running acc);
          pa_changes := changes |}
  else if in_list new_status ["COMPLETED"; "CANCELLED"; "FAILED"; "TIMEOUT"; "UNKNOWN";
                              "PARTIALLY_COMPLETE"] then
    if negb (String.eqb new_status current_status) then
      let st := with_rows st (update_where mask (set_comp (Some now)) (t_rows st)) in
      let to_failed st :=
        if String.eqb new_status "FAILED" then st
        else with_rows st (update_where mask (set_status "FAILED") (t_rows st)) in
      st' <- match fs_file fs (path_join out_dir "exit_status.log") with
             | FText s =>
                 if negb (String.eqb (strip s) "0") then
                   if negb (String.eqb new_status "PARTIALLY_COMPLETE")
                   then Ok (to_failed (add_failed st b))
                   else Ok st
                 else Ok st
             | FUnreadable => Raise OSErrorRead
             | FAbsent =>
                 if negb (in_list new_status ["CANCELLED"; "PARTIALLY_COMPLETE"])
                 then Ok (to_failed (add_failed st b))
                 else Ok st
             end ;;
      Ok {| pa_st := st'; pa_running := pa_running acc; pa_changes := true |}
    else Ok {| pa_st := st; pa_running := pa_running acc; pa_changes := changes |}
  else Ok {| pa_st := st; pa_running := pa_running acc; pa_changes := changes |}
  end.

Fixpoint check_rows (cfg : tconfig) (sc : sched) (fs : fsnap) (now : Z)
  (queue : list string) (jobs : list row) (acc : pass_acc) : res pass_acc :=
  match jobs with
  | [] => Ok acc
  | j :: r => acc' <- check_row cfg sc fs now queue j acc ;;
              check_rows cfg sc fs now queue r acc'
  end.

(** The [never_submitted_mask] after the loop. *)
Definition never_submitted_row (r : row) : bool :=
  (negb (in_list (r_status r) ["PENDING"; "RUNNING"; "FAILED"; "CANCELLED"; "COMPLETED";
                               "PARTIALLY_COMPLETE"; "TIMEOUT"; "UNKNOWN"])
   && match r_job r with None => true | Some j => in_list j ["NA"; ""] end
   && match r_sub r with None => true | Some _ => false end)%bool.

(** [JobTracker._get_running_jobs()] with the [breakpoint()] before its
    return disabled ([PYTHONBREAKPOINT=0]). *)
Definition get_running_jobs (cfg : tconfig) (sc : sched) (fs : fsnap) (now : Z)
  (st : tstate) : res (list (option string) * tstate) :=
  queue <- get_queue_jobs sc ;;
  let jobs_to_check := filter (fun r => in_list (r_status r)
                                  ["RUNNING"; "PENDING"; "CANCELLED"; "FAILED"]) (t_rows st) in
  acc <- check_rows cfg sc fs now queue jobs_to_check
           {| pa_st := st; pa_running := []; pa_changes := false |} ;;
  let st := pa_st acc in
  let changes := pa_changes acc in
  let '(st, changes) :=
    if existsb never_submitted_row (t_rows st)
    then (with_rows st (update_where never_submitted_row (set_status "NEVER_SUBMITTED")
                                     (t_rows st)), true)
    else (st, changes) in
  let st := if changes then save_failed_batches (save_job_status st) else st in
  if tc_matrix cfg then
    p <- tc_patch cfg (t_rows st) ;;
    let '(rows, extra, saved) := p in
    let st := with_rows st rows in
    Ok (fold_left (fun l j => running_add j l) extra (pa_running acc),
        if saved then save_job_status st else st)
  else Ok (pa_running acc, st).

(** *** Batch selection and resubmission *)

(** [range(1, total_batches + 1)] filtered by [batch_range]. *)
Definition batch_ids (cfg : tconfig) : list Z :=
  let ids := map (fun k => Z.of_nat k + 1) (seq 0 (Z.to_nat (tc_num_batches cfg))) in
  match tc_range cfg with
  | None => ids
  | Some (lo, hi) =>
      filter (fun b => (match lo with None => true | Some m => m <=? b end &&
                        match hi with None => true | Some m => b <=? m end)%bool) ids
  end.

Definition batch_has (st : tstate) (statuses : list string) (b : Z) : bool :=
  existsb (fun r => (Z.eqb (r_batch r) b && in_list (r_status r) statuses)%bool) (t_rows st).

(** [JobTracker._get_next_batch_id()] *)
Definition get_next_batch_id (cfg : tconfig) (st : tstate) : Z :=
  let ids := batch_ids cfg in
  let retry := if tc_resubmit cfg then find (batch_has st ["FAILED"; "CANCELLED"]) ids
               else None in
  match retry with
  | Some b => b
  | None => match find (batch_has st ["NEVER_SUBMITTED"; "UNKNOWN"]) ids with
            | Some b => b
            | None => -1
            end
  end.

(** [loc[mask, ['job_id', 'submission_time', 'completion_time']] = ['NA', None, None]]
    followed by [loc[mask, 'status'] = 'NEVER_SUBMITTED']. *)
Definition reset_row (r : row) : row :=
  {| r_batch := r_batch r; r_job := Some "NA"; r_param := r_param r;
     r_status := "NEVER_SUBMITTED"; r_sub := None; r_comp := None; r_stage := r_stage r |}.

Definition resubmit_mask (b : Z) (r : row) : bool :=
  (Z.eqb (r_batch r) b && in_list (r_status r) ["FAILED"; "CANCELLED"])%bool.

(** [JobTracker.mark_jobs_for_resubmission(batch_id)] *)
Definition mark_jobs_for_resubmission (cfg : tconfig) (b : Z) (st : tstate) : tstate :=
  if negb (tc_resubmit cfg) then st
  else if existsb (resubmit_mask b) (t_rows st)
  then save_job_status (with_rows st (update_where (resubmit_mask b) reset_row (t_rows st)))
  else st.

(** *** Submission [submit_next_job] *)

Fixpoint all_digits_aux (s : string) : bool :=
  match s with
  | EmptyString => true
  | String c r => (is_digit c && all_digits_aux r)%bool
  end.

(** [int(s)] succeeds (on the digit strings [submit_job] returns). *)
Definition int_ok (s : string) : bool :=
  (negb (String.eqb s "") && all_digits_aux s)%bool.

Definition new_job_row (b : Z) (j : string) (param : string) (now : Z) : row :=
  {| r_batch := b; r_job := Some j; r_param := Some param;
     r_status := if String.eqb j "dry-run" then "DRY-RUN" else "PENDING";
     r_sub := Some now; r_comp := None; r_stage := Some "pending" |}.

(** [str(param_combination_id).strip()] *)
Definition param_str (r : row) : string :=
  match r_param r with Some p => strip p | None => "nan" end.

(** One iteration of the loop over the parameter combinations: the rows
    after it and whether a job was submitted. *)
Definition submit_combo (cfg : tconfig) (sc : sched) (dry_run : bool) (now : Z)
  (b : Z) (c : combination) (rows : list row) : res (list row * bool) :=
  let pid := param_id c in
  let param_batch_combo := "B" ++ z_str b ++ "_" ++ cname c in
  let param_script_path :=
    path_join (tc_scripts_dir cfg)
      ("job_batch_" ++ z_str b ++ "_param_" ++ z_str (Z.of_nat pid) ++ ".sh") in
  let mask r := (Z.eqb (r_batch r) b && String.eqb (param_str r) param_batch_combo)%bool in
  let existing_jobs := filter mask rows in
  if Nat.ltb 1 (List.length existing_jobs) then Raise AssertionError
  else if (negb (Nat.eqb (List.length existing_jobs) 0) &&
           negb (existsb (fun r => in_list (r_status r) ["RUNNING"; "PENDING"; "COMPLETED"])
                         existing_jobs))%bool
  then
    jid <- submit_job sc (Some param_script_path) (tc_script_exists cfg param_script_path)
                      dry_run ;;
    match jid with
    | Some j =>
        if String.eqb j "" then Ok (rows, false)
        else if (String.eqb j "dry-run" || int_ok j)%bool
        then Ok (app rows [new_job_row b j (get_sub_job_name (tc_combos cfg) b pid) now], true)
        else Ok (rows, false)
    | None => Ok (rows, false)
    end
  else Ok (rows, false).

Fixpoint submit_combos (cfg : tconfig) (sc : sched) (dry_run : bool) (now : Z) (b : Z)
  (cs : list combination) (rows : list row) (count : nat) : res (list row * nat) :=
  match cs with
  | [] => Ok (rows, count)
  | c :: cs' =>
      p <- submit_combo cfg sc dry_run now b c rows ;;
      let '(rows', ok) := p in
      submit_combos cfg sc dry_run now b cs' rows' (if ok then S count else count)
  end.

(** The part of [submit_next_job] after [mark_jobs_for_resubmission]:
    batch files, job script, submission and bookkeeping. *)
Definition submit_batch (cfg : tconfig) (sc : sched) (dry_run : bool) (now : Z)
  (b : Z) (st : tstate) : res (bool * tstate) :=
  match tc_batch_files cfg b with
  | None => Ok (false, st)
  | Some files =>
    let batch_files := filter (fun f => negb (String.eqb f "")) files in
    match batch_files with
    | [] => Ok (false, save_failed_batches (add_failed st b))
    | _ :: _ =>
      script_path <- tc_create_script cfg b ;;
      p <- (if tc_matrix cfg then
              q <- submit_combos cfg sc dry_run now b (tc_combos cfg) (t_rows st) 0 ;;
              let '(rows, n) := q in
              Ok (rows, negb (Nat.eqb n 0))
            else
              jid <- submit_job sc script_path
                       (match script_path with Some s => tc_script_exists cfg s
                                               | None => false end) dry_run ;;
              match jid with
              | Some j => if String.eqb j "" then Ok (t_rows st, false)
                          else Ok (app (t_rows st) [new_job_row b j "NA" now], true)
              | None => Ok (t_rows st, false)
              end) ;;
      let '(rows, success) := p in
      let st := with_rows st rows in
      if success then
        let st := save_job_status st in
        if existsb (Z.eqb b) (t_failed st)
        then Ok (true, save_failed_batches (remove_failed st b))
        else Ok (true, st)
      else Ok (false, st)
    end
  end.

(** [JobTracker.submit_next_job(dry_run)]; [now] is [_format_timestamp()]. *)
Definition submit_next_job (cfg : tconfig) (sc : sched) (fs : fsnap) (dry_run : bool)
  (now : Z) (st : tstate) : res (bool * tstate) :=
  p <- get_running_jobs cfg sc fs now st ;;
  let '(running_jobs, st) := p in
  if tc_cap cfg <=? Z.of_nat (List.length running_jobs) then Ok (false, st)
  else
    let next_batch_id := get_next_batch_id cfg st in
    if next_batch_id =? -1 then Ok (false, st)
    else submit_batch cfg sc dry_run now next_batch_id
           (mark_jobs_for_resubmission cfg next_batch_id st).

(** *** Duplicate cleanup [clean_job_status] *)

(** The keys of [groupby(['batch_id', 'param_combination_id'])]: a row
    whose [param_combination_id] is missing belongs to no group
    ([dropna=True]).  Groups are disjoint and each is processed on its
    own rows only, so the order of the keys does not matter. *)
Fixpoint group_keys (rows : list row) : list (Z * string) :=
  match rows with
  | [] => []
  | r :: rs =>
      let ks := group_keys rs in
      match r_param r with
      | None => ks
      | Some p => (r_batch r, p) :: filter (fun k => negb (Z.eqb (fst k) (r_batch r)
                                                         && String.eqb (snd k) p)%bool) ks
      end
  end.

Definition in_group (k : Z * string) (r : row) : bool :=
  (Z.eqb (r_batch r) (fst k) && opt_eqb (r_param r) (Some (snd k)))%bool.

Definition is_active (r : row) : bool := in_list (r_status r) ["PENDING"; "RUNNING"].

(** [sort_values('submission_time', ascending=asc).index[0]]: NaT sorts
    last in both directions; among equal times the first index is taken. *)
Definition sorts_before (asc : bool) (a b : option Z) : bool :=
  match a, b with
  | Some x, Some y => if asc then x <? y else y <? x
  | Some _, None => true
  | None, _ => false
  end.

Definition first_sorted (asc : bool) (l : list (nat * row)) : option nat :=
  match l with
  | [] => None
  | x :: xs =>
      Some (fst (fold_left (fun best y => if sorts_before asc (r_sub (snd y)) (r_sub (snd best))
                                         then y else best) xs x))
  end.

Definition indexed (rows : list row) : list (nat * row) := combine (seq 0 (List.length rows)) rows.

(** One group: the rows after it, the job ids passed to [scancel], and
    whether the group was problematic. *)
Definition clean_group (now : Z) (k : Z * string) (rows : list row)
  : list row * list string * bool :=
  let active_jobs := filter (fun ir => (in_group k (snd ir) && is_active (snd ir))%bool)
                            (indexed rows) in
  if Nat.ltb 1 (List.length active_jobs) then
    let pending_jobs := filter (fun ir => String.eqb (r_status (snd ir)) "PENDING") active_jobs in
    let keep := match pending_jobs with
                | [] => first_sorted false active_jobs
                | _ => first_sorted true pending_jobs
                end in
    let drop i := (existsb (fun ir => Nat.eqb (fst ir) i) active_jobs &&
                   negb (match keep with Some j => Nat.eqb i j | None => false end))%bool in
    let job_str r := match r_job r with Some j => j | None => "nan" end in
    let cancelled := map (fun ir => job_str (snd ir)) (filter (fun ir => drop (fst ir)) active_jobs) in
    (map (fun ir => if drop (fst ir)
                    then set_comp (Some now) (set_status "CANCELLED" (snd ir))
                    else snd ir) (indexed rows),
     filter (fun j => negb (String.eqb j "dry-run")) cancelled,
     true)
  else (rows, [], false).

(** [JobTracker.clean_job_status()]: the number of issues fixed (the
    [scancel] calls), the job ids cancelled, and the new state. *)
Definition clean_job_status (now : Z) (st : tstate) : nat * list string * tstate :=
  match t_rows st with
  | [] => (0%nat, [], st)
  | _ =>
    let '(rows, cancelled, problematic) :=
      fold_left (fun acc k =>
                   let '(rows, cs, pb) := acc in
                   let '(rows', cs', pb') := clean_group now k rows in
                   (rows', app cs cs', (pb || pb')%bool))
                (group_keys (t_rows st)) (t_rows st, [], false) in
    let st := with_rows st rows in
    (List.length cancelled, cancelled, if problematic then save_job_status st else st)
  end.

(* ------------------------------------------------------------------ *)
(** ** The naming rule as the specification words it *)

(** Per-key abbreviation: temperature -> T, pressure -> P, keys
    containing co2 -> CO2, keys containing n2 -> N2, otherwise the first
    three characters of the key upper-cased. *)
Definition spec_abbrev (key : string) : string :=
  if String.eqb (lower key) "temperature" then "T"
  else if String.eqb (lower key) "pressure" then "P"
  else if contains "co2" (lower key) then "CO2"
  else if contains "n2" (lower key) then "N2"
  else upper (substring 0 3 key).

(** Abbreviation followed by the value, joined with "_". *)
Definition spec_param_name (d : list (string * scalar)) : string :=
  join "_" (map (fun kv => spec_abbrev (fst kv) ++ py_str (snd kv)) d).

(* ------------------------------------------------------------------ *)
(** ** Concrete configurations used by the scenarios *)

Definition empty_fs : fsnap := {| fs_file := fun _ => FAbsent; fs_dir := fun _ => false |}.

(** A scheduler whose queue holds [queue]: [squeue --job] prints
    PENDING for a queued job and nothing otherwise, [sacct] prints
    nothing, and [sbatch] answers with job id [next_id]. *)
Definition queue_sched (queue : list string) (next_id : Z) : sched :=
  {| sq_list := PDone 0 (join (String "010" EmptyString) queue);
     sq_job := fun j => if in_list j queue then PDone 0 "PENDING" else PDone 0 "";
     sacct_job := fun _ => PDone 0 "";
     sbatch := fun _ => PDone 0 ("Submitted batch job " ++ z_str next_id) |}.

(** A configuration with one script step, five batches of one file,
    no parameter matrix; [cap] and [resubmit] as given. *)
Definition simple_cfg (cap : Z) (resubmit : bool) : tconfig := {|
  tc_results_dir := "/results";
  tc_wf := {| wc_workflow := []; wc_scripts := [("simulation", "run_sim.sh")] |};
  tc_combos := []; tc_matrix := false; tc_cap := cap;
  tc_resubmit := resubmit; tc_num_batches := 5; tc_range := None;
  tc_batch_files := fun b => Some ["/data/mof_" ++ z_str b ++ ".cif"];
  tc_create_script := fun b => Ok (Some ("/scripts/job_batch_" ++ z_str b ++ ".sh"));
  tc_scripts_dir := "/scripts"; tc_script_exists := fun _ => true;
  tc_running_stage := fun _ => "running";
  tc_patch := fun rs => Ok (rs, [], false) |}.

Definition mk_row (b : Z) (job param : option string) (status : string)
  (sub comp : option Z) (stage : option string) : row :=
  {| r_batch := b; r_job := job; r_param := param; r_status := status;
     r_sub := sub; r_comp := comp; r_stage := stage |}.

Definition mk_state (rows : list row) (failed : list Z) : tstate :=
  {| t_rows := rows; t_failed := failed; t_store := rows; t_writes := 0;
     t_failed_file := failed |}.

(** Scenario E: resubmission enabled, batch 4 FAILED. *)
Definition scenE_state : tstate :=
  mk_state [mk_row 1 (Some "101") (Some "NA") "COMPLETED" (Some 1) (Some 2) (Some "completed");
            mk_row 4 (Some "104") (Some "NA") "FAILED" (Some 1) (Some 2) (Some "failed")]
           [4].

Definition scenE_cfg : tconfig := simple_cfg 2 true.

(** Scenario C: axes temperature [298, 308] and pressure [1e5]. *)
Definition scenC : pm_config :=
  {| pm_parameters := [("temperature", [SInt 298; SInt 308]);
                       ("pressure", [SIntegralFloat 100000])];
     pm_mode := "all"; pm_custom := [] |}.

(** A table with one never-submitted row as read back from the CSV
    ([job_id] 'NA' and [param_combination_id] 'NA' read as NaN). *)
Definition idle_state : tstate :=
  mk_state [mk_row 1 None None "NEVER_SUBMITTED" None None None] [].

(** Two PENDING submissions of batch 1 without parameter matrix, as
    read back from the CSV. *)
Definition dup_state : tstate :=
  mk_state [mk_row 1 (Some "101") None "PENDING" (Some 10) None (Some "pending");
            mk_row 1 (Some "102") None "PENDING" (Some 11) None (Some "pending")] [].

(** An optional Python analysis step that exits with status 1. *)
Definition analysis_env : Script.gen_env := {|
  Script.ge_scripts := [];
  Script.ge_resolve := fun s => if String.eqb s "analyze.py"
                                then Some ("/pkg/analyze.py", Script.Python) else None;
  Script.ge_step_env := fun _ => {| Script.se_template_copy := false;
                                    Script.se_template_arg := false |} |}.

Definition analysis_step : wstep :=
  {| ws_name := Some "analysis"; ws_script := Some "analyze.py"; ws_subdir := None;
     ws_required := Some false; ws_change_dir := false; ws_args := [] |}.

(** Whether a step counts as completed in the partial-completion loop. *)
Definition step_completed (fs : fsnap) (out_dir step : string) : bool :=
  match classify_step fs out_dir step with StepCompleted => true | _ => false end.

(** A scheduler whose command-line tools are not installed: every
    [subprocess.run] raises [FileNotFoundError]. *)
Definition no_cli : sched :=
  {| sq_list := PNotFound; sq_job := fun _ => PNotFound;
     sacct_job := fun _ => PNotFound; sbatch := fun _ => PNotFound |}.

(** The failed-batch set only grows and its file is left untouched. *)
Definition grows (s s' : tstate) : Prop :=
  incl (t_failed s) (t_failed s') /\ t_failed_file s' = t_failed_file s.

(** Every batch of the failed-batch file is in the in-memory set. *)
Definition failed_inv (s : tstate) : Prop := incl (t_failed_file s) (t_failed s).

(** Rows appended by one submission of batch [b] at time [now]. *)
Definition new_rows_of (b now : Z) (rs : list row) : Prop :=
  Forall (fun r => r_batch r = b /\ r_sub r = Some now) rs.

(* ------------------------------------------------------------------ *)
(* ------------------------------------------------------------------ *)
(** ** Python [int(s)] and [str.replace] *)

(** The characters below 256 that [int()] strips: the ASCII ones of
    [Py_ISSPACE] and the Latin-1 spaces U+0085 and U+00A0. *)
Definition py_space (c : ascii) : bool :=
  let n := nat_of_ascii c in
  ((Nat.leb 9 n && Nat.leb n 13) || Nat.eqb n 32 || Nat.eqb n 133 || Nat.eqb n 160)%bool.

Fixpoint drop_space (l : list ascii) : list ascii :=
  match l with
  | c :: r => if py_space c then drop_space r else l
  | [] => []
  end.

Definition strip_space (s : string) : string :=
  string_of_list_ascii (rev (drop_space (rev (drop_space (list_ascii_of_string s))))).

(** Decimal digits with single underscores between them, accumulated
    into [acc]; [after_us] when the previous character was [_]. *)
Fixpoint int_digits (s : string) (acc : Z) (after_us : bool) : option Z :=
  match s with
  | EmptyString => if after_us then None else Some acc
  | String c r =>
      if is_digit c then int_digits r (acc * 10 + Z.of_nat (nat_of_ascii c - 48)) false
      else if (Ascii.eqb c "_" && negb after_us)%bool then int_digits r acc true
      else None
  end.

Definition int_body (s : string) : option Z :=
  match s with
  | String c _ => if is_digit c then int_digits s 0 false else None
  | EmptyString => None
  end.

(** [int(s)] for a [str] in base 10: [None] is [ValueError].  The
    characters are those below 256; the non-ASCII decimal digits [int()]
    also accepts lie outside this character set. *)
Definition py_int (s : string) : option Z :=
  match strip_space s with
  | String c r =>
      if Ascii.eqb c "-" then option_map Z.opp (int_body r)
      else if Ascii.eqb c "+" then int_body r
      else int_body (String c r)
  | EmptyString => None
  end.

(** [s.replace(old, new)] for a non-empty [old]: left to right, an
    occurrence is replaced and the [skip] characters after its first one
    are consumed. *)
Fixpoint repl_aux (old new : string) (skip : nat) (s : string) : string :=
  match s with
  | EmptyString => EmptyString
  | String c r =>
      match skip with
      | S k => repl_aux old new k r
      | O => if String.prefix old s
             then new ++ repl_aux old new (String.length old - 1) r
             else String c (repl_aux old new 0 r)
      end
  end.

(** [s.replace("", new)]: [new] before every character and at the end. *)
Fixpoint interleave (new s : string) : string :=
  match s with
  | EmptyString => new
  | String c r => new ++ String c (interleave new r)
  end.

Definition replace_str (old new s : string) : string :=
  if String.eqb old "" then interleave new s else repl_aux old new 0 s.

(* ------------------------------------------------------------------ *)
(** ** Batch bookkeeping (batch_manager.py, job_scheduler.py) *)

(** The file [_split_into_batches] writes for batch number [i]. *)
Definition batch_csv_name (i : Z) : string := "batch_" ++ z_str i ++ ".csv".

(** [BatchManager.get_num_batches()]: [listing] is [os.listdir(batch_dir)]
    ([None] when the directory does not exist), [num_cif_files] is
    [len(self.cif_files)]; [None] is the [ZeroDivisionError] of a batch
    size of 0. *)
Definition get_num_batches (listing : option (list string)) (num_cif_files batch_size : nat)
  : option Z :=
  let batch_files :=
    match listing with
    | Some l => filter (fun f => (String.prefix "batch_" f && ends_with ".csv" f)%bool) l
    | None => []
    end in
  match batch_files with
  | _ :: _ =>
      Some (fold_left (fun max_batch filename =>
                         match py_int (replace_str ".csv" "" (replace_str "batch_" "" filename)) with
                         | Some batch_num => Z.max max_batch batch_num
                         | None => max_batch
                         end) batch_files 0)
  | [] =>
      if Nat.eqb num_cif_files 0 then Some 0
      else if Nat.eqb batch_size 0 then None
      else Some (Z.of_nat (ceil_div num_cif_files batch_size))
  end.

(** [JobScheduler.is_batch_in_range(batch_id)] *)
Definition is_batch_in_range (min_batch_id max_batch_id : option Z) (batch_id : Z) : bool :=
  match min_batch_id, max_batch_id with
  | None, None => true
  | _, _ =>
      if match min_batch_id with Some m => batch_id <? m | None => false end then false
      else if match max_batch_id with Some m => m <? batch_id | None => false end then false
      else true
  end.

(** [ParameterMatrix.get_sub_job_id(batch_id, param_id)] *)
Definition get_sub_job_id (batch_id param_id : Z) : string :=
  "batch_" ++ z_str batch_id ++ "_param_" ++ z_str param_id.

(** [ParameterMatrix.is_enabled()]: the section is non-empty as soon as
    it has a non-empty [parameters]. *)
Definition is_enabled (c : pm_config) : bool :=
  match pm_parameters c with [] => false | _ => true end.

(** [ParameterMatrix.get_total_jobs_for_batch(batch_id)] *)
Definition get_total_jobs_for_batch (c : pm_config) (batch_id : Z) : nat :=
  List.length (generate_combinations c).

(** The body of the loop of [get_num_batches] over the batch files. *)
Definition num_step (max_batch : Z) (filename : string) : Z :=
  match py_int (replace_str ".csv" "" (replace_str "batch_" "" filename)) with
  | Some batch_num => Z.max max_batch batch_num
  | None => max_batch
  end.

(** [f.startswith('batch_') and f.endswith('.csv')] *)
Definition is_batch_file (f : string) : bool :=
  (String.prefix "batch_" f && ends_with ".csv" f)%bool.

(** The bounds [JobScheduler.__init__] takes from [batch_range]
    ([if batch_range: self.min_batch_id, self.max_batch_id = batch_range]). *)
Definition scheduler_range (batch_range : option (option Z * option Z)) : option Z * option Z :=
  match batch_range with
  | Some (lo, hi) => (lo, hi)
  | None => (None, None)
  end.

(** [JobTracker.get_jobs_to_submit(batch_id)]: the index labels of the
    eligible rows of the batch (the table keeps a [RangeIndex]: it is read
    from CSV and extended with [concat(..., ignore_index=True)]). *)
Definition get_jobs_to_submit (cfg : tconfig) (st : tstate) (b : Z) : list nat :=
  let eligible_statuses :=
    if tc_resubmit cfg then ["NEVER_SUBMITTED"; "UNKNOWN"; "FAILED"; "CANCELLED"]
    else ["NEVER_SUBMITTED"; "UNKNOWN"] in
  map fst (filter (fun ir => (Z.eqb (r_batch (snd ir)) b
                              && in_list (r_status (snd ir)) eligible_statuses)%bool)
                  (indexed (t_rows st))).

(** The columns of a row that identify it: batch, job id, parameter
    combination and submission time. *)
Definition row_key (r : row) : Z * option string * option string * option Z :=
  (r_batch r, r_job r, r_param r, r_sub r).

(** At most one row of the table is active ([PENDING] or [RUNNING]) in
    the group [k] of [groupby(['batch_id', 'param_combination_id'])]. *)
Definition one_active (k : Z * string) (rows : list row) : Prop :=
  forall i j r1 r2, nth_error rows i = Some r1 -> nth_error rows j = Some r2 ->
    (in_group k r1 && is_active r1)%bool = true ->
    (in_group k r2 && is_active r2)%bool = true -> i = j.

(** Three active submissions of batch 1 for the parameter combination
    [B1_T298]: two PENDING, one RUNNING. *)
Definition dup_param_state : tstate :=
  mk_state [mk_row 1 (Some "101") (Some "B1_T298") "PENDING" (Some 10) None (Some "pending");
            mk_row 1 (Some "102") (Some "B1_T298") "PENDING" (Some 11) None (Some "pending");
            mk_row 1 (Some "103") (Some "B1_T298") "RUNNING" (Some 12) None (Some "running")] [].

(* ------------------------------------------------------------------ *)
(** ** The tracker with the dtype of the [job_id] column *)

(** The tracker again, with the [job_id] column as pandas (2.x) holds
    it.  A table read by [pd.read_csv] has an [int64] [job_id] column
    when every row has a job id, a [float64] one when the ids are
    numbers and some are missing ('NA' is read as NaN), and an [object]
    one (cells kept as strings) when some id is not a number, such as
    'dry-run'.  [submit_next_job] appends [int(job_id)] with
    [pd.concat], which takes the common dtype of the two columns; the
    pass takes [str(job['job_id'])] and compares the raw column with
    that string.  Rows, state and the functions over them are those of
    the model above with the job id cell typed; [JobScheduler.submit_job]
    also does the bookkeeping of [batch_id] that the tracker always
    asks for. *)
Module Typed.

(** A job id cell: a Python/numpy integer, a [float64] holding an
    integer (job ids stay below 2^53, so the value is exact and [str]
    prints it with a trailing ".0"), or a string. *)
Inductive jcell :=
| JInt (z : Z)
| JFloat (z : Z)
| JStr (s : string).

(** The dtype of the [job_id] column. *)
Inductive dtype := DInt | DFloat | DObject.

(** [str(v)] of a cell. *)
Definition cell_str (c : jcell) : string :=
  match c with
  | JInt z => z_str z
  | JFloat z => z_str z ++ ".0"
  | JStr s => s
  end.

(** The dtype of the one-row frame [pd.DataFrame([new_row])] for a cell. *)
Definition cell_dtype (c : jcell) : dtype :=
  match c with JInt _ => DInt | JFloat _ => DFloat | JStr _ => DObject end.

(** The dtype [pd.concat] gives to two columns of dtypes [a] and [b]. *)
Definition common_dtype (a b : dtype) : dtype :=
  match a, b with
  | DInt, DInt => DInt
  | DFloat, DFloat => DFloat
  | DObject, _ => DObject
  | _, DObject => DObject
  | _, _ => DFloat
  end.

(** A cell stored in a column of dtype [d]. *)
Definition cast_cell (d : dtype) (c : jcell) : jcell :=
  match d, c with
  | DFloat, JInt z => JFloat z
  | _, _ => c
  end.

(** [self.job_status['job_id'] == s] for a string [s], on one cell: a
    number never equals a string, and NaN equals nothing. *)
Definition cell_eq_str (c : option jcell) (s : string) : bool :=
  match c with Some (JStr t) => String.eqb t s | _ => false end.

(** [str(job['job_id']) if pd.notna(job['job_id']) else np.nan] *)
Definition job_str (c : option jcell) : option string :=
  match c with Some v => Some (cell_str v) | None => None end.

Record row := {
  r_batch : Z;
  r_job : option jcell;
  r_param : option string;
  r_status : string;
  r_sub : option Z;
  r_comp : option Z;
  r_stage : option string
}.

Record tstate := {
  t_rows : list row;             (* self.job_status *)
  t_jdtype : dtype;              (* dtype of its job_id column *)
  t_failed : list Z;             (* self.failed_batches *)
  t_store : option (list row);   (* job_status.csv: the table last saved, or None
                                    when update_job_status_csv rewrote it last *)
  t_writes : nat;                (* number of writes of job_status.csv *)
  t_failed_file : list Z;        (* failed_batches.txt *)
  t_job_map : list (string * Z)  (* JobScheduler.batch_job_map, as saved *)
}.

(** The configuration of the model above, with the parameter-matrix
    pass at the end of [_get_running_jobs] over the typed rows. *)
Record tcfg := {
  base : tconfig;
  patch : list row -> res (list row * list (option string) * bool)
}.

Definition with_rows (st : tstate) (rs : list row) : tstate :=
  {| t_rows := rs; t_jdtype := t_jdtype st; t_failed := t_failed st; t_store := t_store st;
     t_writes := t_writes st; t_failed_file := t_failed_file st; t_job_map := t_job_map st |}.

Definition with_table (st : tstate) (d : dtype) (rs : list row) : tstate :=
  {| t_rows := rs; t_jdtype := d; t_failed := t_failed st; t_store := t_store st;
     t_writes := t_writes st; t_failed_file := t_failed_file st; t_job_map := t_job_map st |}.

Definition add_failed (st : tstate) (b : Z) : tstate :=
  {| t_rows := t_rows st; t_jdtype := t_jdtype st;
     t_failed := if existsb (Z.eqb b) (t_failed st) then t_failed st else t_failed st ++ [b];
     t_store := t_store st; t_writes := t_writes st; t_failed_file := t_failed_file st;
     t_job_map := t_job_map st |}.

Definition remove_failed (st : tstate) (b : Z) : tstate :=
  {| t_rows := t_rows st; t_jdtype := t_jdtype st;
     t_failed := filter (fun x => negb (Z.eqb x b)) (t_failed st);
     t_store := t_store st; t_writes := t_writes st; t_failed_file := t_failed_file st;
     t_job_map := t_job_map st |}.

(** [_save_job_status()] (the lock is acquired). *)
Definition save_job_status (st : tstate) : tstate :=
  {| t_rows := t_rows st; t_jdtype := t_jdtype st; t_failed := t_failed st;
     t_store := Some (t_rows st); t_writes := S (t_writes st);
     t_failed_file := t_failed_file st; t_job_map := t_job_map st |}.

(** [_save_failed_batches()] *)
Definition save_failed_batches (st : tstate) : tstate :=
  {| t_rows := t_rows st; t_jdtype := t_jdtype st; t_failed := t_failed st;
     t_store := t_store st; t_writes := t_writes st; t_failed_file := t_failed st;
     t_job_map := t_job_map st |}.

(** The effect of [submit_job]'s bookkeeping on the tracker's files:
    [batch_job_map] and, when [update_job_status_csv] wrote it,
    job_status.csv in its own six-column layout. *)
Definition after_submit (st : tstate) (m : list (string * Z)) (wrote : bool) : tstate :=
  {| t_rows := t_rows st; t_jdtype := t_jdtype st; t_failed := t_failed st;
     t_store := if wrote then None else t_store st;
     t_writes := if wrote then S (t_writes st) else t_writes st;
     t_failed_file := t_failed_file st; t_job_map := m |}.

Definition set_status (s : string) (r : row) : row :=
  {| r_batch := r_batch r; r_job := r_job r; r_param := r_param r; r_status := s;
     r_sub := r_sub r; r_comp := r_comp r; r_stage := r_stage r |}.
Definition set_stage (s : string) (r : row) : row :=
  {| r_batch := r_batch r; r_job := r_job r; r_param := r_param r; r_status := r_status r;
     r_sub := r_sub r; r_comp := r_comp r; r_stage := Some s |}.
Definition set_comp (t : option Z) (r : row) : row :=
  {| r_batch := r_batch r; r_job := r_job r; r_param := r_param r; r_status := r_status r;
     r_sub := r_sub r; r_comp := t; r_stage := r_stage r |}.
Definition cast_row (d : dtype) (r : row) : row :=
  {| r_batch := r_batch r;
     r_job := match r_job r with Some c => Some (cast_cell d c) | None => None end;
     r_param := r_param r; r_status := r_status r;
     r_sub := r_sub r; r_comp := r_comp r; r_stage := r_stage r |}.

(** [self.job_status.loc[mask, col] = v] *)
Definition update_where (m : row -> bool) (f : row -> row) (rs : list row) : list row :=
  map (fun r => if m r then f r else r) rs.

(** *** The reconciliation pass [_get_running_jobs] *)

Record pass_acc := {
  pa_st : tstate;
  pa_running : list (option string);   (* running_jobs *)
  pa_changes : bool                    (* status_changes *)
}.

(** The row mask of the loop body:
    [(job_status['job_id'] == job_id) | (job_status['job_id'].isna() & pd.isna(job_id))]
    and the batch and parameter conditions. *)
Definition row_mask (job : option string) (b : Z) (param : option string) (r : row) : bool :=
  let job_match := match job with
                   | Some x => cell_eq_str (r_job r) x
                   | None => match r_job r with None => true | Some _ => false end
                   end in
  let param_match :=
    match param with
    | None => match r_param r with None => true | Some p => String.eqb p "NA" end
    | Some p => if String.eqb p "NA"
                then match r_param r with None => true | Some q => String.eqb q "NA" end
                else opt_eqb (r_param r) (Some p)
    end in
  (job_match && Z.eqb (r_batch r) b && param_match)%bool.

(** The new status of a row that has left the queue (or has no job id). *)
Definition status_off_queue (cfg : tcfg) (fs : fsnap) (out_dir : string)
  (b : Z) (param : option string) (st : tstate) : res (string * tstate) :=
  let partial := if opt_eqb param (Some "NA")
                 then check_partial_completion (tc_wf (base cfg)) fs out_dir
                 else check_parameter_partial_completion (tc_wf (base cfg)) fs out_dir in
  let after_partial :=
    if String.eqb partial "PARTIALLY_COMPLETE" then Ok ("PARTIALLY_COMPLETE", st)
    else Ok ("FAILED", add_failed st b) in
  match fs_file fs (path_join out_dir "exit_status.log") with
  | FText s => if String.eqb (strip s) "0" then Ok ("COMPLETED", st) else after_partial
  | FUnreadable => Raise OSErrorRead
  | FAbsent => after_partial
  end.

(** One iteration of [for idx, job in jobs_to_check.iterrows()]. *)
Definition check_row (cfg : tcfg) (sc : sched) (fs : fsnap) (now : Z)
  (queue : list string) (job : row) (acc : pass_acc) : res pass_acc :=
  let job_id := job_str (r_job job) in
  let b := r_batch job in
  let param := r_param job in
  let current_status := r_status job in
  let mask := row_mask job_id b param in
  od <- row_output_dir (base cfg) b param ;;
  match od with
  | None => Ok acc
  | Some out_dir =>
  let off_queue := match job_id with
                   | None => true
                   | Some j => (negb (String.eqb j "dry-run") && negb (in_list j queue))%bool
                   end in
  ns_st <- (if off_queue then status_off_queue cfg fs out_dir b param (pa_st acc)
            else match job_id with
                 | Some j => ns <- get_job_status sc fs j (Some out_dir) ;; Ok (ns, pa_st acc)
                 | None => Raise TypeError
                 end) ;;
  let '(new_status, st) := ns_st in
  let rows := t_rows st in
  let '(rows, changes) :=
    if existsb mask rows then
      let '(rows, changes) :=
        if negb (String.eqb current_status new_status)
        then (update_where mask (set_status new_status) rows, true)
        else (rows, pa_changes acc) in
      if in_list new_status ["RUNNING"; "PENDING"; "COMPLETED"; "FAILED"; "PARTIALLY_COMPLETE"]
      then
        let workflow_stage := get_current_workflow_stage (base cfg) fs b new_status in
        let current_workflow_stage :=
          match find mask rows with
          | Some r => match r_stage r with Some s => s | None => "" end
          | None => "" end in
        if negb (String.eqb workflow_stage current_workflow_stage)
        then (update_where mask (set_stage workflow_stage) rows, true)
        else (rows, changes)
      else (rows, changes)
    else (rows, pa_changes acc) in
  let st := with_rows st rows in
  if in_list new_status ["RUNNING"; "PENDING"] then
    Ok {| pa_st := st; pa_running := running_add job_id (pa_running acc);
          pa_changes := changes |}
  else if in_list new_status ["COMPLETED"; "CANCELLED"; "FAILED"; "TIMEOUT"; "UNKNOWN";
                              "PARTIALLY_COMPLETE"] then
    if negb (String.eqb new_status current_status) then
      let st := with_rows st (update_where mask (set_comp (Some now)) (t_rows st)) in
      let to_failed st :=
        if String.eqb new_status "FAILED" then st
        else with_rows st (update_where mask (set_status "FAILED") (t_rows st)) in
      st' <- match fs_file fs (path_join out_dir "exit_status.log") with
             | FText s =>
                 if negb (String.eqb (strip s) "0") then
                   if negb (String.eqb new_status "PARTIALLY_COMPLETE")
                   then Ok (to_failed (add_failed st b))
                   else Ok st
                 else Ok st
             | FUnreadable => Raise OSErrorRead
             | FAbsent =>
                 if negb (in_list new_status ["CANCELLED"; "PARTIALLY_COMPLETE"])
                 then Ok (to_failed (add_failed st b))
                 else Ok st
             end ;;
      Ok {| pa_st := st'; pa_running := pa_running acc; pa_changes := true |}
    else Ok {| pa_st := st; pa_running := pa_running acc; pa_changes := changes |}
  else Ok {| pa_st := st; pa_running := pa_running acc; pa_changes := changes |}
  end.

Fixpoint check_rows (cfg : tcfg) (sc : sched) (fs : fsnap) (now : Z)
  (queue : list string) (jobs : list row) (acc : pass_acc) : res pass_acc :=
  match jobs with
  | [] => Ok acc
  | j :: r => acc' <- check_row cfg sc fs now queue j acc ;;
              check_rows cfg sc fs now queue r acc'
  end.

(** The [never_submitted_mask] after the loop; [job_id == 'NA'] and
    [job_id == ''] hold only for string cells. *)
Definition never_submitted_row (r : row) : bool :=
  (negb (in_list (r_status r) ["PENDING"; "RUNNING"; "FAILED"; "CANCELLED"; "COMPLETED";
                               "PARTIALLY_COMPLETE"; "TIMEOUT"; "UNKNOWN"])
   && match r_job r with
      | None => true
      | Some c => (cell_eq_str (Some c) "NA" || cell_eq_str (Some c) "")%bool
      end
   && match r_sub r with None => true | Some _ => false end)%bool.

(** [JobTracker._get_running_jobs()] with the [breakpoint()] before its
    return disabled ([PYTHONBREAKPOINT=0]). *)
Definition get_running_jobs (cfg : tcfg) (sc : sched) (fs : fsnap) (now : Z)
  (st : tstate) : res (list (option string) * tstate) :=
  queue <- get_queue_jobs sc ;;
  let jobs_to_check := filter (fun r => in_list (r_status r)
                                  ["RUNNING"; "PENDING"; "CANCELLED"; "FAILED"]) (t_rows st) in
  acc <- check_rows cfg sc fs now queue jobs_to_check
           {| pa_st := st; pa_running := []; pa_changes := false |} ;;
  let st := pa_st acc in
  let changes := pa_changes acc in
  let '(st, changes) :=
    if existsb never_submitted_row (t_rows st)
    then (with_rows st (update_where never_submitted_row (set_status "NEVER_SUBMITTED")
                                     (t_rows st)), true)
    else (st, changes) in
  let st := if changes then save_failed_batches (save_job_status st) else st in
  if tc_matrix (base cfg) then
    p <- patch cfg (t_rows st) ;;
    let '(rows, extra, saved) := p in
    let st := with_rows st rows in
    Ok (fold_left (fun l j => running_add j l) extra (pa_running acc),
        if saved then save_job_status st else st)
  else Ok (pa_running acc, st).

(** *** Batch selection and resubmission *)

Definition batch_has (st : tstate) (statuses : list string) (b : Z) : bool :=
  existsb (fun r => (Z.eqb (r_batch r) b && in_list (r_status r) statuses)%bool) (t_rows st).

(** [JobTracker._get_next_batch_id()] *)
Definition get_next_batch_id (cfg : tcfg) (st : tstate) : Z :=
  let ids := batch_ids (base cfg) in
  let retry := if tc_resubmit (base cfg) then find (batch_has st ["FAILED"; "CANCELLED"]) ids
               else None in
  match retry with
  | Some b => b
  | None => match find (batch_has st ["NEVER_SUBMITTED"; "UNKNOWN"]) ids with
            | Some b => b
            | None => -1
            end
  end.

(** [loc[mask, ['job_id', 'submission_time', 'completion_time']] = ['NA', None, None]]
    followed by [loc[mask, 'status'] = 'NEVER_SUBMITTED']. *)
Definition reset_row (r : row) : row :=
  {| r_batch := r_batch r; r_job := Some (JStr "NA"); r_param := r_param r;
     r_status := "NEVER_SUBMITTED"; r_sub := None; r_comp := None; r_stage := r_stage r |}.

Definition resubmit_mask (b : Z) (r : row) : bool :=
  (Z.eqb (r_batch r) b && in_list (r_status r) ["FAILED"; "CANCELLED"])%bool.

(** [JobTracker.mark_jobs_for_resubmission(batch_id)]; writing the string
    'NA' into an [int64] or [float64] column turns it into an [object]
    one (pandas 2.x upcasts with a [FutureWarning]). *)
Definition mark_jobs_for_resubmission (cfg : tcfg) (b : Z) (st : tstate) : tstate :=
  if negb (tc_resubmit (base cfg)) then st
  else if existsb (resubmit_mask b) (t_rows st)
  then save_job_status (with_table st DObject
                          (update_where (resubmit_mask b) reset_row (t_rows st)))
  else st.

(** *** Submission *)

(** [dict[k] = v] on an insertion-ordered dict. *)
Definition dict_set (m : list (string * Z)) (k : string) (v : Z) : list (string * Z) :=
  if existsb (fun kv => String.eqb (fst kv) k) m
  then map (fun kv => if String.eqb (fst kv) k then (k, v) else kv) m
  else m ++ [(k, v)].

(** [JobScheduler.update_job_status_csv(job_id, batch_id)] as
    [submit_job] calls it ([force_resubmission] false): the status
    queries it makes, whose exceptions reach the caller, and whether it
    rewrote job_status.csv.  Reading the old file is guarded by
    [except Exception]; the stage of [_get_current_workflow_stage] and
    the rows it writes do not feed back into the tracker. *)
Definition update_job_status_csv (cfg : tconfig) (sc : sched) (fs : fsnap)
  (job_map : list (string * Z)) (job_id : string) (batch_id : Z) : res bool :=
  if (negb (String.eqb job_id "") && negb (batch_id =? 0))%bool then
    if (String.eqb job_id "dry-run"
        || match py_int job_id with Some _ => true | None => false end)%bool then
      _ <- get_job_status sc fs job_id None ;;
      let d := batch_dir cfg batch_id in
      (if fs_dir fs d then _ <- get_job_status sc fs job_id (Some d) ;; Ok true
       else Ok true)
    else Ok false
  else
    _ <- fold_left (fun acc jb =>
                      _ <- acc ;;
                      let d := batch_dir cfg (snd jb) in
                      _ <- get_job_status sc fs (fst jb) (if fs_dir fs d then Some d else None) ;;
                      Ok tt)
                   job_map (Ok tt) ;;
    Ok true.

(** [JobScheduler.submit_job(script_path, dry_run, batch_id)] with a
    [batch_id] (the tracker always passes one): the job id, the
    [batch_job_map] after it, and whether job_status.csv was rewritten.
    [script_exists] is [os.path.exists(script_path)]. *)
Definition submit_job (cfg : tconfig) (sc : sched) (fs : fsnap)
  (job_map : list (string * Z)) (script_path : option string)
  (script_exists dry_run : bool) (batch_id : Z)
  : res (option string * list (string * Z) * bool) :=
  match script_path with
  | None => Ok (None, job_map, false)
  | Some path =>
    if negb script_exists then Ok (None, job_map, false)
    else if dry_run then Ok (Some "dry-run", job_map, false)
    else catch_cpe (None, job_map, false)
      (out <- run_checked (sbatch sc path) ;;
       let output := strip out in
       if contains "Submitted batch job" output then
         let job_id := match search_digits_after "Submitted batch job " output with
                       | Some j => Some j
                       | None => search_digits_after "" output
                       end in
         match job_id with
         | Some j =>
             if String.eqb j "" then Ok (None, job_map, false)
             else
               let m := dict_set job_map j batch_id in
               wrote <- update_job_status_csv cfg sc fs m j batch_id ;;
               Ok (Some j, m, wrote)
         | None => Ok (None, job_map, false)
         end
       else Ok (None, job_map, false))
  end.

(** [self.job_status = pd.concat([self.job_status, new_df], ignore_index=True)]
    for a new row whose job id cell is [c]. *)
Definition concat_row (st : tstate) (b : Z) (c : jcell) (param status : string) (now : Z)
  : tstate :=
  let d := common_dtype (t_jdtype st) (cell_dtype c) in
  let r := {| r_batch := b; r_job := Some c; r_param := Some param; r_status := status;
              r_sub := Some now; r_comp := None; r_stage := Some "pending" |} in
  with_table st d (map (cast_row d) (app (t_rows st) [r])).

(** [str(param_combination_id).strip()] *)
Definition param_str (r : row) : string :=
  match r_param r with Some p => strip p | None => "nan" end.

(** One iteration of the loop over the parameter combinations. *)
Definition submit_combo (cfg : tcfg) (sc : sched) (fs : fsnap) (dry_run : bool) (now : Z)
  (b : Z) (c : combination) (st : tstate) : res (tstate * bool) :=
  let pid := param_id c in
  let param_batch_combo := "B" ++ z_str b ++ "_" ++ cname c in
  let param_script_path :=
    path_join (tc_scripts_dir (base cfg))
      ("job_batch_" ++ z_str b ++ "_param_" ++ z_str (Z.of_nat pid) ++ ".sh") in
  let mask r := (Z.eqb (r_batch r) b && String.eqb (param_str r) param_batch_combo)%bool in
  let existing_jobs := filter mask (t_rows st) in
  if Nat.ltb 1 (List.length existing_jobs) then Raise AssertionError
  else if (negb (Nat.eqb (List.length existing_jobs) 0) &&
           negb (existsb (fun r => in_list (r_status r) ["RUNNING"; "PENDING"; "COMPLETED"])
                         existing_jobs))%bool
  then
    p <- submit_job (base cfg) sc fs (t_job_map st) (Some param_script_path)
                    (tc_script_exists (base cfg) param_script_path) dry_run b ;;
    let '(jid, m, wrote) := p in
    let st := after_submit st m wrote in
    match jid with
    | Some j =>
        if String.eqb j "" then Ok (st, false)
        else
          let job_id_value := if String.eqb j "dry-run" then Some (JStr "dry-run")
                              else match py_int j with
                                   | Some z => Some (JInt z)
                                   | None => None
                                   end in
          match job_id_value with
          | Some v =>
              Ok (concat_row st b v (get_sub_job_name (tc_combos (base cfg)) b pid)
                    (if String.eqb j "dry-run" then "DRY-RUN" else "PENDING") now, true)
          | None => Ok (st, false)
          end
    | None => Ok (st, false)
    end
  else Ok (st, false).

Fixpoint submit_combos (cfg : tcfg) (sc : sched) (fs : fsnap) (dry_run : bool) (now : Z)
  (b : Z) (cs : list combination) (st : tstate) (count : nat) : res (tstate * nat) :=
  match cs with
  | [] => Ok (st, count)
  | c :: cs' =>
      p <- submit_combo cfg sc fs dry_run now b c st ;;
      let '(st', ok) := p in
      submit_combos cfg sc fs dry_run now b cs' st' (if ok then S count else count)
  end.

(** The part of [submit_next_job] after [mark_jobs_for_resubmission]. *)
Definition submit_batch (cfg : tcfg) (sc : sched) (fs : fsnap) (dry_run : bool) (now : Z)
  (b : Z) (st : tstate) : res (bool * tstate) :=
  match tc_batch_files (base cfg) b with
  | None => Ok (false, st)
  | Some files =>
    let batch_files := filter (fun f => negb (String.eqb f "")) files in
    match batch_files with
    | [] => Ok (false, save_failed_batches (add_failed st b))
    | _ :: _ =>
      script_path <- tc_create_script (base cfg) b ;;
      p <- (if tc_matrix (base cfg) then
              q <- submit_combos cfg sc fs dry_run now b (tc_combos (base cfg)) st 0 ;;
              let '(st, n) := q in
              Ok (st, negb (Nat.eqb n 0))
            else
              q <- submit_job (base cfg) sc fs (t_job_map st) script_path
                     (match script_path with Some s => tc_script_exists (base cfg) s
                                             | None => false end) dry_run b ;;
              let '(jid, m, wrote) := q in
              let st := after_submit st m wrote in
              match jid with
              | Some j =>
                  if String.eqb j "" then Ok (st, false)
                  else
                    v <- (if String.eqb j "dry-run" then Ok (JStr "dry-run")
                          else match py_int j with
                               | Some z => Ok (JInt z)
                               | None => Raise ValueError
                               end) ;;
                    Ok (concat_row st b v "NA"
                          (if String.eqb j "dry-run" then "DRY-RUN" else "PENDING") now, true)
              | None => Ok (st, false)
              end) ;;
      let '(st, success) := p in
      if success then
        let st := save_job_status st in
        if existsb (Z.eqb b) (t_failed st)
        then Ok (true, save_failed_batches (remove_failed st b))
        else Ok (true, st)
      else Ok (false, st)
    end
  end.

(** [JobTracker.submit_next_job(dry_run)]; [now] is [_format_timestamp()]. *)
Definition submit_next_job (cfg : tcfg) (sc : sched) (fs : fsnap) (dry_run : bool)
  (now : Z) (st : tstate) : res (bool * tstate) :=
  p <- get_running_jobs cfg sc fs now st ;;
  let '(running_jobs, st) := p in
  if tc_cap (base cfg) <=? Z.of_nat (List.length running_jobs) then Ok (false, st)
  else
    let next_batch_id := get_next_batch_id cfg st in
    if next_batch_id =? -1 then Ok (false, st)
    else submit_batch cfg sc fs dry_run now next_batch_id
           (mark_jobs_for_resubmission cfg next_batch_id st).

(** *** Scenario D *)

(** A table as [pd.read_csv] returns it, with the [job_id] dtype the
    reader infers. *)
Definition loaded (d : dtype) (rows : list row) : tstate :=
  {| t_rows := rows; t_jdtype := d; t_failed := []; t_store := Some rows; t_writes := 0;
     t_failed_file := []; t_job_map := [] |}.

Definition mk_row (b : Z) (job : option jcell) (param : option string) (status : string)
  (sub comp : option Z) (stage : option string) : row :=
  {| r_batch := b; r_job := job; r_param := param; r_status := status;
     r_sub := sub; r_comp := comp; r_stage := stage |}.

(** Scenario D as the tracker's loop finds it at the start of a tick:
    five never-submitted batches read back from job_status.csv, where
    'NA' in [job_id] and [param_combination_id] is read as NaN, so the
    [job_id] column is [float64]. *)
Definition scenD_state : tstate :=
  loaded DFloat (map (fun b => mk_row b None None "NEVER_SUBMITTED" None None None)
                     [1; 2; 3; 4; 5]).

(** Concurrency cap 2, no resubmission, no parameter matrix. *)
Definition scenD_cfg : tcfg :=
  {| base := simple_cfg 2 false; patch := fun rs => Ok (rs, [], false) |}.

(** Three calls of [submit_next_job] in one tick; the k-th call sees the
    jobs submitted by the earlier calls in the queue. *)
Definition scenD_run : res (list bool * tstate) :=
  p1 <- submit_next_job scenD_cfg (queue_sched [] 101) empty_fs false 10 scenD_state ;;
  p2 <- submit_next_job scenD_cfg (queue_sched ["101"] 102) empty_fs false 11 (snd p1) ;;
  p3 <- submit_next_job scenD_cfg (queue_sched ["101"; "102"] 103) empty_fs false 12 (snd p2) ;;
  Ok ([fst p1; fst p2; fst p3], snd p3).

(** Two PENDING jobs read back from a job_status.csv where every row
    has a job id, so the [job_id] column is [int64]. *)
Definition busy_state : tstate :=
  loaded DInt [mk_row 1 (Some (JInt 101)) (Some "NA") "PENDING" (Some 10) None (Some "pending");
               mk_row 2 (Some (JInt 102)) (Some "NA") "PENDING" (Some 11) None (Some "pending")].

End Typed.

(* ================================================================== *)
(** * Properties *)

(** ** Auxiliary lemmas *)

Lemma bind_ok {A B} (m : res A) (k : A -> res B) (b : B) :
  bind m k = Ok b -> exists a, m = Ok a /\ k a = Ok b.
Proof. destruct m; simpl; [eauto | discriminate]. Qed.

Lemma scan_steps_completed (fs : fsnap) (d : string) (steps : list string) :
  fst (scan_steps fs d steps) = filter (step_completed fs d) steps.
Proof.
  induction steps as [|s r IH]; simpl; [reflexivity|].
  destruct (scan_steps fs d r) as [c f]; simpl in *.
  unfold step_completed at 1.
  destruct (classify_step fs d s); simpl; congruence.
Qed.

Lemma filter_length_le {A} (f : A -> bool) (l : list A) :
  (List.length (filter f l) <= List.length l)%nat.
Proof.
  induction l as [|x r IH]; simpl; [lia|].
  destruct (f x); simpl; lia.
Qed.

Lemma partial_result_spec (completed : list string) (n : nat) :
  (List.length completed <= n)%nat -> n <> 0%nat ->
  (partial_result completed n = "PARTIALLY_COMPLETE"
     <-> (0 < List.length completed < n)%nat) /\
  (partial_result completed n = "COMPLETED" <-> List.length completed = n) /\
  (partial_result completed n = "FAILED" <-> List.length completed = 0%nat).
Proof.
  intros Hle Hn. unfold partial_result.
  destruct (Nat.eqb (List.length completed) 0) eqn:E0;
  destruct (Nat.ltb (List.length completed) n) eqn:E1;
  destruct (Nat.eqb (List.length completed) n) eqn:E2;
  simpl;
  repeat match goal with
         | H : Nat.eqb _ _ = true |- _ => apply Nat.eqb_eq in H
         | H : Nat.eqb _ _ = false |- _ => apply Nat.eqb_neq in H
         | H : Nat.ltb _ _ = true |- _ => apply Nat.ltb_lt in H
         | H : Nat.ltb _ _ = false |- _ => apply Nat.ltb_ge in H
         end;
  repeat split; intros; try congruence; try lia.
Qed.

(** ** C1 *)

(** Claim C1: the partial-completion check (batch and parameter
    versions alike) classifies a step as not reached when its directory
    is absent and as completed exactly when the directory exists and its
    exit_status.log reads "0" after stripping; with [k] completed steps
    out of [n] configured ones the result is PARTIALLY_COMPLETE iff the
    list is non-empty and 0 < k < n, COMPLETED iff the list is non-empty
    and k = n, and FAILED iff the list is empty or k = 0. *)
Theorem partial_completion_classification (cfg : wconfig) (fs : fsnap) (dir : string) :
  let steps := workflow_steps cfg in
  let k := List.length (filter (step_completed fs dir) steps) in
  let n := List.length steps in
  (forall s,
     (classify_step fs dir s = NotReached <-> fs_dir fs (path_join dir s) = false) /\
     (classify_step fs dir s = StepCompleted <->
        fs_dir fs (path_join dir s) = true /\
        exists t, fs_file fs (path_join (path_join dir s) "exit_status.log") = FText t
                  /\ strip t = "0")) /\
  check_parameter_partial_completion cfg fs dir = check_partial_completion cfg fs dir /\
  (check_partial_completion cfg fs dir = "PARTIALLY_COMPLETE" <-> steps <> [] /\ (0 < k < n)%nat) /\
  (check_partial_completion cfg fs dir = "COMPLETED" <-> steps <> [] /\ k = n) /\
  (check_partial_completion cfg fs dir = "FAILED" <-> steps = [] \/ k = 0%nat).
Proof.
  intros steps k n. split.
  { intros s. unfold classify_step.
    destruct (fs_dir fs (path_join dir s)); simpl.
    - destruct (fs_file fs (path_join (path_join dir s) "exit_status.log")) as [| |t] eqn:F.
      + split; split; intros H; try discriminate; destruct H as [_ [t0 [H0 _]]]; discriminate.
      + split; split; intros H; try discriminate; destruct H as [_ [t0 [H0 _]]]; discriminate.
      + destruct (String.eqb (strip t) "0") eqn:E.
        * apply String.eqb_eq in E. split; split; intros H; try discriminate; eauto.
        * apply String.eqb_neq in E. split; split; intros H; try discriminate.
          destruct H as [_ [t' [H1 H2]]]. inversion H1; subst. contradiction.
    - split; split; intros H; try discriminate; try reflexivity.
      destruct H as [H _]; discriminate. }
  assert (Hpar : check_parameter_partial_completion cfg fs dir = check_partial_completion cfg fs dir).
  { unfold check_parameter_partial_completion, check_partial_completion, partial_result.
    destruct (workflow_steps cfg); [reflexivity|].
    destruct (scan_steps fs dir (s :: l)); reflexivity. }
  split; [exact Hpar|].
  unfold check_partial_completion. subst k n. subst steps.
  destruct (workflow_steps cfg) as [|s0 rest] eqn:E.
  - simpl. split; [|split].
    + split; [discriminate | intros [Hne _]; contradiction].
    + split; [discriminate | intros [Hne _]; contradiction].
    + split; [intros _; left; reflexivity | intros _; reflexivity].
  - pose proof (scan_steps_completed fs dir (s0 :: rest)) as Hc.
    destruct (scan_steps fs dir (s0 :: rest)) as [completed failed]. simpl in Hc. subst completed.
    pose proof (filter_length_le (step_completed fs dir) (s0 :: rest)) as Hle.
    destruct (partial_result_spec (filter (step_completed fs dir) (s0 :: rest))
                (List.length (s0 :: rest)) Hle ltac:(simpl; lia)) as [H1 [H2 H3]].
    rewrite H1, H2, H3. split; [|split].
    + split; [intros Hk; split; [discriminate | exact Hk] | intros [_ Hk]; exact Hk].
    + split; [intros Hk; split; [discriminate | exact Hk] | intros [_ Hk]; exact Hk].
    + split; [intros Hk; right; exact Hk | intros [Hk | Hk]; [discriminate | exact Hk]].
Qed.

(** ** C7 *)

Lemma firstn_add_split {A} (a b : nat) (l : list A) :
  firstn (a + b) l = (firstn a l ++ firstn b (skipn a l))%list.
Proof.
  revert l; induction a as [|a IH]; intros l; simpl; [reflexivity|].
  destruct l as [|x r]; simpl; [destruct b; reflexivity|].
  f_equal; apply IH.
Qed.

Lemma ceil_div_bounds (n d : nat) :
  (0 < d)%nat -> (n <= d * ceil_div n d /\ d * ceil_div n d < n + d)%nat.
Proof.
  intros Hd. unfold ceil_div.
  pose proof (Nat.div_mod (n + d - 1) d ltac:(lia)) as Hdm.
  pose proof (Nat.mod_upper_bound (n + d - 1) d ltac:(lia)) as Hr.
  set (q := ((n + d - 1) / d)%nat) in *. set (r := ((n + d - 1) mod d)%nat) in *.
  nia.
Qed.

Lemma length_slice {A} (l : list A) (a b : nat) :
  List.length (slice l a b) = Nat.min (b - a) (List.length l - a).
Proof. unfold slice. rewrite length_firstn, length_skipn. reflexivity. Qed.

Lemma split_concat_prefix {A} (s : nat) (files : list A) (k : nat) :
  (0 < s)%nat -> (k <= ceil_div (List.length files) s)%nat ->
  List.concat (map (fun i => slice files (i * s) (Nat.min ((i + 1) * s) (List.length files)))
              (seq 0 k))
  = firstn (Nat.min (k * s) (List.length files)) files.
Proof.
  intros Hs. induction k as [|k IH]; intros Hk; [reflexivity|].
  destruct (ceil_div_bounds (List.length files) s Hs) as [_ Hup].
  assert (Hks : (k * s < List.length files)%nat) by nia.
  rewrite seq_S, map_app, concat_app, IH by lia. simpl. rewrite app_nil_r.
  unfold slice.
  replace (Nat.min (k * s) (List.length files)) with (k * s)%nat by lia.
  rewrite <- firstn_add_split. f_equal. nia.
Qed.

(** Claim C7: for a positive batch size, the batches concatenate back
    to the input list (so every file occurs exactly once, in order);
    their number is ceil(N/size), i.e. the least m with N <= size*m;
    every batch but the last has exactly [batch_size] files and the last
    has between 1 and [batch_size]. *)
Theorem split_into_batches_partition {A} (batch_size : nat) (files : list A) :
  (0 < batch_size)%nat ->
  let batches := split_into_batches batch_size files in
  let N := List.length files in
  List.concat batches = files /\
  List.length batches = ceil_div N batch_size /\
  (N <= batch_size * List.length batches /\ batch_size * List.length batches < N + batch_size)%nat /\
  (forall i b, nth_error batches i = Some b -> (S i < List.length batches)%nat ->
               List.length b = batch_size) /\
  (forall b, nth_error batches (List.length batches - 1) = Some b ->
             (1 <= List.length b <= batch_size)%nat).
Proof.
  intros Hs batches N. subst N.
  destruct (ceil_div_bounds (List.length files) batch_size Hs) as [Hlo Hhi].
  assert (Hlen : List.length batches = ceil_div (List.length files) batch_size).
  { subst batches. unfold split_into_batches. rewrite length_map, length_seq. reflexivity. }
  (* the batch at position i *)
  assert (Hnth : forall i b, nth_error batches i = Some b ->
            (i < ceil_div (List.length files) batch_size)%nat /\
            List.length b = (Nat.min ((i + 1) * batch_size) (List.length files) - i * batch_size)%nat).
  { intros i b Hb. subst batches. unfold split_into_batches in Hb.
    rewrite nth_error_map, nth_error_seq in Hb.
    destruct (Nat.ltb i (ceil_div (List.length files) batch_size)) eqn:Ei; [|discriminate].
    apply Nat.ltb_lt in Ei. simpl in Hb. inversion Hb; subst b. split; [exact Ei|].
    rewrite length_slice.
    assert (i * batch_size < (List.length files))%nat by nia. lia. }
  split; [|split; [exact Hlen|split; [rewrite Hlen; lia|split]]].
  - subst batches. unfold split_into_batches.
    rewrite split_concat_prefix by (try lia; exact Hs).
    replace (Nat.min (ceil_div (List.length files) batch_size * batch_size) (List.length files))
      with (List.length files) by nia.
    apply firstn_all.
  - intros i b Hb Hi. destruct (Hnth i b Hb) as [_ Hl]. rewrite Hlen in Hi.
    assert ((i + 1) * batch_size < (List.length files))%nat by nia. lia.
  - intros b Hb. destruct (Hnth _ b Hb) as [Hi Hl]. rewrite Hlen in Hi, Hl.
    assert ((ceil_div (List.length files) batch_size - 1) * batch_size < (List.length files))%nat by nia.
    replace (ceil_div (List.length files) batch_size - 1 + 1)%nat with (ceil_div (List.length files) batch_size) in Hl by lia.
    nia.
Qed.

Lemma split_into_batches_partition_witness :
  (0 < 3)%nat /\ List.concat (split_into_batches 3 (seq 1 7)) = seq 1 7.
Proof.
  split; [lia|].
  exact (proj1 (split_into_batches_partition 3 (seq 1 7) ltac:(lia))).
Defined.

(** ** C8 *)

Lemma split_first_app (s t : string) :
  split_first "_" s = None -> split_first "_" (s ++ String "_" t) = Some (s, t).
Proof.
  induction s as [|c r IH]; simpl; intros H; [reflexivity|].
  destruct (Ascii.eqb c "_") eqn:E; [discriminate|].
  destruct (split_first "_" r) as [[a b]|] eqn:Er; [discriminate|].
  rewrite IH by reflexivity. reflexivity.
Qed.

Lemma digit_not_us (n : Z) : Ascii.eqb (digit (n mod 10)) "_" = false.
Proof.
  apply Ascii.eqb_neq. intros H.
  pose proof (Z.mod_pos_bound n 10 ltac:(lia)) as Hb.
  assert (Hn : (Z.to_nat (n mod 10) < 10)%nat)
    by (change 10%nat with (Z.to_nat 10); apply Z2Nat.inj_lt; lia).
  unfold digit in H. apply (f_equal nat_of_ascii) in H.
  rewrite nat_ascii_embedding in H by lia.
  change (nat_of_ascii "_") with 95%nat in H. lia.
Qed.

Lemma digits_aux_no_us (fuel : nat) (n : Z) (acc : string) :
  split_first "_" acc = None -> split_first "_" (digits_aux fuel n acc) = None.
Proof.
  revert n acc; induction fuel as [|f IH]; intros n acc H; [exact H|].
  assert (Hd : split_first "_" (String (digit (n mod 10)) acc) = None).
  { cbn [split_first]. rewrite digit_not_us, H. reflexivity. }
  cbn [digits_aux]. destruct (n <? 10); [exact Hd | apply IH, Hd].
Qed.

Lemma z_str_no_us (z : Z) : split_first "_" (z_str z) = None.
Proof.
  unfold z_str. destruct (z <? 0).
  - cbn [split_first]. rewrite digits_aux_no_us by reflexivity. reflexivity.
  - apply digits_aux_no_us. reflexivity.
Qed.

Lemma In_mapi_from {A B} (f : nat -> A -> B) (k : nat) (l : list A) (y : B) :
  In y (mapi_from f k l) -> exists j x, nth_error l j = Some x /\ y = f (k + j)%nat x.
Proof.
  revert k; induction l as [|x r IH]; intros k H; simpl in H; [contradiction|].
  destruct H as [H|H].
  - exists 0%nat, x. split; [reflexivity|]. rewrite Nat.add_0_r. congruence.
  - destruct (IH (S k) H) as [j [x' [Hj Hy]]]. exists (S j), x'.
    split; [exact Hj|]. rewrite Hy. f_equal. lia.
Qed.

Lemma nth_error_mapi_from {A B} (f : nat -> A -> B) (k : nat) (l : list A) (j : nat) :
  nth_error (mapi_from f k l) j = option_map (f (k + j)%nat) (nth_error l j).
Proof.
  revert k j; induction l as [|x r IH]; intros k j; destruct j; simpl; try reflexivity.
  - rewrite Nat.add_0_r. reflexivity.
  - rewrite IH. f_equal. f_equal. lia.
Qed.

(** Every generated combination sits at the position given by its id. *)
Lemma generated_at_param_id (pc : pm_config) (c : combination) :
  In c (generate_combinations pc) -> nth_error (generate_combinations pc) (param_id c) = Some c.
Proof.
  unfold generate_combinations. destruct (pm_parameters pc) as [|p ps].
  - intros [H|[]]. subst c. reflexivity.
  - destruct (String.eqb (pm_mode pc) "all").
    + intros H. unfold mapi in *. apply In_mapi_from in H.
      destruct H as [j [x [Hj Hc]]]. subst c. cbn [param_id Nat.add].
      rewrite nth_error_mapi_from, Hj. reflexivity.
    + destruct (String.eqb (pm_mode pc) "custom"); [|intros []].
      intros H. unfold mapi in *. apply In_mapi_from in H.
      destruct H as [j [x [Hj Hc]]]. subst c. cbn [param_id Nat.add].
      rewrite nth_error_mapi_from, Hj. reflexivity.
Qed.

(** Claim C8: for every generated combination and every batch id the
    sub-job name is "B{batch_id}_{name}", and splitting it on its first
    "_" (as the reconciliation pass does) gives back exactly the name,
    whatever "_" the name itself contains. *)
Theorem sub_job_name_roundtrip (pc : pm_config) (c : combination) (batch_id : Z) :
  In c (generate_combinations pc) ->
  get_sub_job_name (generate_combinations pc) batch_id (param_id c)
    = "B" ++ z_str batch_id ++ "_" ++ cname c /\
  param_name_of (get_sub_job_name (generate_combinations pc) batch_id (param_id c))
    = Some (cname c).
Proof.
  intros Hin. unfold get_sub_job_name. rewrite (generated_at_param_id pc c Hin).
  split; [reflexivity|].
  unfold param_name_of. simpl.
  rewrite (split_first_app (z_str batch_id) (cname c) (z_str_no_us batch_id)).
  reflexivity.
Qed.

Lemma sub_job_name_roundtrip_witness :
  In {| param_id := 1; cname := "T308_P100000.0";
        parameters := [("temperature", SInt 308); ("pressure", SIntegralFloat 100000)] |}
     (generate_combinations scenC) /\
  param_name_of (get_sub_job_name (generate_combinations scenC) 12 1) = Some "T308_P100000.0".
Proof.
  assert (H : In {| param_id := 1; cname := "T308_P100000.0";
                    parameters := [("temperature", SInt 308); ("pressure", SIntegralFloat 100000)] |}
                 (generate_combinations scenC)) by (vm_compute; auto).
  split; [exact H|].
  exact (proj2 (sub_job_name_roundtrip scenC _ 12 H)).
Defined.

(** ** C9 *)

Lemma substring_0_short (s : string) (n : nat) :
  (String.length s <= n)%nat -> substring 0 n s = s.
Proof.
  revert n; induction s as [|c r IH]; intros n H; destruct n; simpl in *; try reflexivity.
  - lia.
  - rewrite IH by lia. reflexivity.
Qed.

Lemma name_part_spec (kv : string * scalar) :
  name_part kv = spec_abbrev (fst kv) ++ py_str (snd kv).
Proof.
  destruct kv as [key value]. unfold name_part, spec_abbrev. simpl.
  destruct (String.eqb (lower key) "temperature"); [reflexivity|].
  destruct (String.eqb (lower key) "pressure"); [reflexivity|].
  destruct (contains "co2" (lower key)); [reflexivity|].
  destruct (contains "n2" (lower key)); [reflexivity|].
  destruct (Nat.ltb 3 (String.length key)) eqn:E; [reflexivity|].
  apply Nat.ltb_ge in E. rewrite substring_0_short by exact E. reflexivity.
Qed.

Lemma generate_param_name_spec (d : list (string * scalar)) :
  d <> [] -> generate_param_name d = spec_param_name d.
Proof.
  intros Hd. unfold generate_param_name, spec_param_name.
  rewrite (map_ext name_part (fun kv => spec_abbrev (fst kv) ++ py_str (snd kv)) name_part_spec).
  destruct d; [contradiction | reflexivity].
Qed.

Lemma in_product (ls : list (list scalar)) (combo : list scalar) :
  In combo (product ls) <-> Forall2 (@In scalar) combo ls.
Proof.
  revert combo; induction ls as [|l r IH]; intros combo; simpl.
  - split.
    + intros [H|[]]. subst combo. constructor.
    + intros H. inversion H. left. reflexivity.
  - rewrite in_flat_map. split.
    + intros [x [Hx Hm]]. apply in_map_iff in Hm. destruct Hm as [t [Ht Hin]]. subst combo.
      constructor; [exact Hx | apply IH, Hin].
    + intros H. inversion H as [|x l' t r' Hx Ht]; subst.
      exists x. split; [exact Hx|]. apply in_map. apply IH, Ht.
Qed.

Lemma mapi_from_ext_in {A B} (f g : nat -> A -> B) (k : nat) (l : list A) :
  (forall i x, In x l -> f i x = g i x) -> mapi_from f k l = mapi_from g k l.
Proof.
  revert k; induction l as [|x r IH]; intros k H; simpl; [reflexivity|].
  rewrite H by (left; reflexivity). f_equal. apply IH. intros i y Hy. apply H. right. exact Hy.
Qed.

(** Claim C9: with mode "all" and at least one axis, the combinations
    are the cartesian product of the axis value lists (first axis
    outermost) enumerated with [param_id] equal to the position and named
    by the per-key abbreviations followed by the value, joined with
    "_"; for the axes temperature [298, 308] and pressure [1e5] this
    gives exactly (0, T298_P100000.0) and (1, T308_P100000.0). *)
Theorem generate_combinations_all (pc : pm_config) :
  pm_parameters pc <> [] -> pm_mode pc = "all" ->
  let keys := map fst (pm_parameters pc) in
  let values := map snd (pm_parameters pc) in
  generate_combinations pc =
    mapi (fun i combo => {| param_id := i; cname := spec_param_name (zip keys combo);
                            parameters := zip keys combo |}) (product values) /\
  (forall combo, In combo (product values) <-> Forall2 (@In scalar) combo values) /\
  map (fun c => (param_id c, cname c)) (generate_combinations scenC)
    = [(0%nat, "T298_P100000.0"); (1%nat, "T308_P100000.0")].
Proof.
  intros Hne Hall keys values.
  split; [|split; [intros combo; apply in_product | vm_compute; reflexivity]].
  unfold generate_combinations. subst keys values.
  destruct (pm_parameters pc) as [|p ps] eqn:Ep; [contradiction|].
  rewrite Hall. simpl String.eqb. cbv iota beta.
  unfold mapi. apply mapi_from_ext_in. intros i combo Hin.
  f_equal. apply generate_param_name_spec.
  apply in_product in Hin. simpl in Hin. inversion Hin; subst. simpl. discriminate.
Qed.

Lemma generate_combinations_all_witness :
  (pm_parameters scenC <> [] /\ pm_mode scenC = "all") /\
  generate_combinations scenC =
    mapi (fun i combo => {| param_id := i;
                            cname := spec_param_name (zip (map fst (pm_parameters scenC)) combo);
                            parameters := zip (map fst (pm_parameters scenC)) combo |})
         (product (map snd (pm_parameters scenC))).
Proof.
  assert (H1 : pm_parameters scenC <> []) by discriminate.
  assert (H2 : pm_mode scenC = "all") by reflexivity.
  split; [split; assumption|].
  exact (proj1 (generate_combinations_all scenC H1 H2)).
Defined.

(** ** C6: failed-batch bookkeeping of reconciliation and submission *)

Lemma grows_refl s : grows s s.
Proof. split; [apply incl_refl | reflexivity]. Qed.
Lemma grows_trans s1 s2 s3 : grows s1 s2 -> grows s2 s3 -> grows s1 s3.
Proof. intros [H1 H2] [H3 H4]. split; [eapply incl_tran; eauto | congruence]. Qed.
Lemma grows_with_rows s s' rs : grows s s' -> grows s (with_rows s' rs).
Proof. intros [H1 H2]. split; simpl; assumption. Qed.
Lemma grows_add_failed s s' b : grows s s' -> grows s (add_failed s' b).
Proof.
  intros [H1 H2]. split; simpl; [|assumption].
  destruct (existsb (Z.eqb b) (t_failed s')); [assumption|].
  intros x Hx. apply in_or_app. left. apply H1, Hx.
Qed.

Lemma status_off_queue_grows cfg fs d b param st ns st' :
  status_off_queue cfg fs d b param st = Ok (ns, st') -> grows st st'.
Proof.
  unfold status_off_queue. intros H.
  repeat match type of H with
  | (match ?x with _ => _ end) = Ok _ => destruct x eqn:?
  | (if ?c then _ else _) = Ok _ => destruct c eqn:?
  end; try discriminate; injection H as <- <-;
  first [apply grows_refl | apply grows_add_failed, grows_refl].
Qed.

Ltac break_ok H :=
  repeat match type of H with
  | bind ?m ?k = Ok _ =>
      let a := fresh "a" in let Hm := fresh "Hm" in
      apply bind_ok in H; destruct H as [a [Hm H]]
  | (match ?x with _ => _ end) = Ok _ => destruct x eqn:?
  | (if ?c then _ else _) = Ok _ => destruct c eqn:?
  | Raise _ = Ok _ => discriminate H
  end.

Ltac break_all :=
  repeat match goal with
  | H : bind ?m ?k = Ok _ |- _ =>
      let a := fresh "a" in let Hm := fresh "Hm" in
      apply bind_ok in H; destruct H as [a [Hm H]]
  | H : (match ?x with _ => _ end) = Ok _ |- _ => destruct x eqn:?
  | H : (if ?c then _ else _) = Ok _ |- _ => destruct c eqn:?
  | H : Raise _ = Ok _ |- _ => discriminate H
  | H : Ok _ = Ok _ |- _ => injection H; clear H; intros; subst
  end.

Lemma check_row_grows cfg sc fs now queue job acc acc' :
  check_row cfg sc fs now queue job acc = Ok acc' -> grows (pa_st acc) (pa_st acc').
Proof.
  unfold check_row. intros H. break_all.
  all: repeat match goal with H : status_off_queue _ _ _ _ _ _ = Ok (_, _) |- _ =>
                apply status_off_queue_grows in H end.
  all: simpl; repeat match goal with |- context[if ?c then _ else _] => destruct c end.
  all: eauto using grows_refl, grows_with_rows, grows_add_failed.
Qed.

Lemma check_rows_grows cfg sc fs now queue jobs acc acc' :
  check_rows cfg sc fs now queue jobs acc = Ok acc' -> grows (pa_st acc) (pa_st acc').
Proof.
  revert acc; induction jobs as [|j r IH]; intros acc H; simpl in H.
  - injection H as <-. apply grows_refl.
  - apply bind_ok in H. destruct H as [a [Ha H]].
    eapply grows_trans; [eapply check_row_grows; exact Ha | apply IH, H].
Qed.

Lemma inv_with_rows s rs : failed_inv s -> failed_inv (with_rows s rs).
Proof. unfold failed_inv; simpl; auto. Qed.
Lemma inv_save_job s : failed_inv s -> failed_inv (save_job_status s).
Proof. unfold failed_inv; simpl; auto. Qed.
Lemma inv_save_failed s : failed_inv (save_failed_batches s).
Proof. unfold failed_inv; simpl; apply incl_refl. Qed.
Lemma inv_grows s s' : grows s s' -> failed_inv s -> failed_inv s'.
Proof. intros [Hi He] H. unfold failed_inv. rewrite He. eapply incl_tran; eauto. Qed.

Lemma get_running_jobs_inv cfg sc fs now st running st' :
  get_running_jobs cfg sc fs now st = Ok (running, st') -> failed_inv st -> failed_inv st'.
Proof.
  unfold get_running_jobs. intros H Hinv.
  apply bind_ok in H. destruct H as [queue [_ H]].
  apply bind_ok in H. destruct H as [acc [Hacc H]].
  apply check_rows_grows in Hacc. simpl in Hacc.
  pose proof (inv_grows _ _ Hacc Hinv) as Hst. clear Hacc Hinv.
  break_all.
  all: repeat match goal with
         | H : (if ?c then _ else _) = (_, _) |- _ => destruct c
         | H : (_, _) = (_, _) |- _ => injection H; clear H; intros; subst
         end.
  all: repeat match goal with |- context[if ?c then _ else _] => destruct c end.
  all: eauto using inv_with_rows, inv_save_job, inv_save_failed.
Qed.

Lemma submit_combo_appends cfg sc dry now b c rows rows' ok :
  submit_combo cfg sc dry now b c rows = Ok (rows', ok) ->
  exists nr, rows' = (rows ++ nr)%list /\ new_rows_of b now nr.
Proof.
  unfold submit_combo. intros H. break_all.
  all: first [ exists []; rewrite app_nil_r; split; [reflexivity | constructor]
             | eexists; split; [reflexivity | repeat constructor] ].
Qed.

Lemma submit_combos_appends cfg sc dry now b cs rows count rows' n :
  submit_combos cfg sc dry now b cs rows count = Ok (rows', n) ->
  exists nr, rows' = (rows ++ nr)%list /\ new_rows_of b now nr.
Proof.
  revert rows count; induction cs as [|c cs IH]; intros rows count H; simpl in H.
  - injection H as <- _. exists []. rewrite app_nil_r. split; [reflexivity | constructor].
  - apply bind_ok in H. destruct H as [[r1 ok] [H1 H]].
    apply submit_combo_appends in H1. destruct H1 as [nr1 [-> Hn1]].
    apply IH in H. destruct H as [nr2 [-> Hn2]].
    exists (nr1 ++ nr2)%list. split; [symmetry; apply app_assoc | apply Forall_app; split; assumption].
Qed.

Lemma not_in_remove_failed s b : ~ In b (t_failed (remove_failed s b)).
Proof.
  simpl. rewrite filter_In. intros [_ H]. rewrite Z.eqb_refl in H. discriminate.
Qed.

Lemma not_in_filter_neq b l : ~ In b (filter (fun x => negb (Z.eqb x b)) l).
Proof.
  rewrite filter_In. intros [_ H]. rewrite Z.eqb_refl in H. discriminate.
Qed.

Lemma existsb_eqb_false b l : existsb (Z.eqb b) l = false -> ~ In b l.
Proof.
  intros H Hin. assert (existsb (Z.eqb b) l = true) by (apply existsb_exists; exists b;
    split; [exact Hin | apply Z.eqb_refl]). congruence.
Qed.

Lemma submit_batch_success cfg sc dry now b s s' :
  submit_batch cfg sc dry now b s = Ok (true, s') ->
  exists nr, t_rows s' = (t_rows s ++ nr)%list /\ new_rows_of b now nr /\
             ~ In b (t_failed s') /\ (failed_inv s -> ~ In b (t_failed_file s')).
Proof.
  unfold submit_batch. intros H. break_all.
  all: repeat match goal with
         | H : submit_combos _ _ _ _ _ _ _ _ = Ok (_, _) |- _ =>
             apply submit_combos_appends in H; destruct H as [? [-> ?]]
         | H : (if ?c then _ else _) = (_, _) |- _ => destruct c eqn:?
         | H : (_, _) = (_, _) |- _ => injection H; clear H; intros; subst
         end.
  all: try discriminate.
  all: eexists; split; [reflexivity|].
  all: split; [first [assumption | repeat constructor] |].
  all: cbn [t_failed t_failed_file save_failed_batches remove_failed save_job_status
            with_rows] in *.
  all: first
    [ split; [apply not_in_filter_neq | intros _; apply not_in_filter_neq]
    | split; [apply existsb_eqb_false; assumption
             | intros Hinv Hin; apply Hinv in Hin; revert Hin; apply existsb_eqb_false;
               assumption] ].
Qed.

Lemma mark_resubmit cfg b st : tc_resubmit cfg = true ->
  t_rows (mark_jobs_for_resubmission cfg b st) =
    update_where (resubmit_mask b) reset_row (t_rows st) /\
  t_failed (mark_jobs_for_resubmission cfg b st) = t_failed st /\
  t_failed_file (mark_jobs_for_resubmission cfg b st) = t_failed_file st.
Proof.
  intros Hr. unfold mark_jobs_for_resubmission. rewrite Hr. simpl.
  destruct (existsb (resubmit_mask b) (t_rows st)) eqn:He; [simpl; auto|].
  split; [|auto]. unfold update_where. rewrite <- (map_id (t_rows st)) at 1.
  symmetry. apply map_ext_in. intros r Hin.
  destruct (resubmit_mask b r) eqn:Hm; [|reflexivity].
  exfalso. assert (existsb (resubmit_mask b) (t_rows st) = true) by
    (apply existsb_exists; eauto). congruence.
Qed.

Lemma nth_error_update_where m f rs i r :
  nth_error rs i = Some r -> m r = true -> nth_error (update_where m f rs) i = Some (f r).
Proof.
  intros H Hm. unfold update_where. rewrite nth_error_map, H. simpl. rewrite Hm. reflexivity.
Qed.

(** Claim C6: with resubmission enabled, a successful [submit_next_job]
    selects a batch [b] (not -1) after the reconciliation pass; every
    FAILED or CANCELLED row of [b] is reset in place to NEVER_SUBMITTED
    with [job_id] 'NA' and no submission or completion time (batch and
    parameter combination kept), the new submission rows of [b] are
    appended after them, and [b] is afterwards neither in the in-memory
    failed-batch set nor in the persisted failed-batch file (provided
    the file did not list batches missing from the in-memory set). *)
Theorem resubmission_resets_failed_rows cfg sc fs dry now st st' :
  tc_resubmit cfg = true ->
  failed_inv st ->
  submit_next_job cfg sc fs dry now st = Ok (true, st') ->
  exists running st_r nr,
    get_running_jobs cfg sc fs now st = Ok (running, st_r) /\
    let b := get_next_batch_id cfg st_r in
    b <> -1 /\
    t_rows st' = (update_where (resubmit_mask b) reset_row (t_rows st_r) ++ nr)%list /\
    (forall i r, nth_error (t_rows st_r) i = Some r -> r_batch r = b ->
       In (r_status r) ["FAILED"; "CANCELLED"] ->
       exists r', nth_error (t_rows st') i = Some r' /\
         r_status r' = "NEVER_SUBMITTED" /\ r_job r' = Some "NA" /\
         r_sub r' = None /\ r_comp r' = None /\
         r_batch r' = r_batch r /\ r_param r' = r_param r) /\
    new_rows_of b now nr /\
    ~ In b (t_failed st') /\ ~ In b (t_failed_file st').
Proof.
  intros Hr Hinv H. unfold submit_next_job in H.
  apply bind_ok in H. destruct H as [[running st_r] [Hrun H]].
  destruct (tc_cap cfg <=? Z.of_nat (List.length running)); [discriminate|].
  destruct (get_next_batch_id cfg st_r =? -1) eqn:Hb; [discriminate|].
  apply Z.eqb_neq in Hb.
  pose proof (get_running_jobs_inv _ _ _ _ _ _ _ Hrun Hinv) as Hinv_r.
  set (b := get_next_batch_id cfg st_r) in *.
  destruct (mark_resubmit cfg b st_r Hr) as [Hrows [Hf Hff]].
  apply submit_batch_success in H. destruct H as [nr [Hrows' [Hnew [Hnf Hnff]]]].
  exists running, st_r, nr. split; [exact Hrun|]. cbv zeta.
  rewrite Hrows in Hrows'.
  split; [exact Hb|]. split; [exact Hrows'|]. split.
  - intros i r Hi Hbr Hst. exists (reset_row r). split.
    + rewrite Hrows'. rewrite nth_error_app1.
      * apply nth_error_update_where; [exact Hi|].
        unfold resubmit_mask. rewrite Hbr, Z.eqb_refl. simpl.
        destruct Hst as [<- | [<- | []]]; reflexivity.
      * unfold update_where. rewrite length_map. apply nth_error_Some. congruence.
    + simpl. repeat split.
  - split; [exact Hnew|]. split; [exact Hnf|]. apply Hnff.
    unfold failed_inv. rewrite Hf, Hff. exact Hinv_r.
Qed.

Lemma resubmission_resets_failed_rows_witness :
  exists running st_r st',
    submit_next_job scenE_cfg (queue_sched [] 201) empty_fs false 5 scenE_state = Ok (true, st') /\
    get_running_jobs scenE_cfg (queue_sched [] 201) empty_fs 5 scenE_state = Ok (running, st_r) /\
    get_next_batch_id scenE_cfg st_r = 4 /\ In 4 (t_failed_file scenE_state) /\
    ~ In 4 (t_failed_file st').
Proof.
  destruct (submit_next_job scenE_cfg (queue_sched [] 201) empty_fs false 5 scenE_state)
    as [[ok st']|e] eqn:E; [|vm_compute in E; discriminate].
  assert (Hok : ok = true) by (vm_compute in E; inversion E; reflexivity).
  subst ok.
  assert (Hinv : failed_inv scenE_state) by (unfold failed_inv; simpl; apply incl_refl).
  destruct (resubmission_resets_failed_rows scenE_cfg (queue_sched [] 201) empty_fs false 5
              scenE_state st' eq_refl Hinv E)
    as [running [st_r [nr [Hrun [Hb [_ [_ [_ [_ Hff]]]]]]]]].
  assert (H4 : get_next_batch_id scenE_cfg st_r = 4).
  { vm_compute in Hrun. injection Hrun; intros <- _. vm_compute. reflexivity. }
  rewrite H4 in Hff.
  exists running, st_r, st'. split; [reflexivity|]. split; [exact Hrun|].
  split; [exact H4 | split; [simpl; auto | exact Hff]].
Defined.

(** ** C2 *)

(** Claim C2 does not hold: on a table with one never-submitted row (job id
    and submission time read back as NaN) and an empty queue, the
    reconciliation pass changes no row, yet the first and the second
    pass both write the Store, because the never-submitted mask also
    matches rows already NEVER_SUBMITTED and sets [status_changes]. *)
Theorem reconcile_rewrites_unchanged_store :
  exists r1 st1 r2 st2,
    get_running_jobs (simple_cfg 2 false) (queue_sched [] 101) empty_fs 1 idle_state
      = Ok (r1, st1) /\
    get_running_jobs (simple_cfg 2 false) (queue_sched [] 101) empty_fs 2 st1
      = Ok (r2, st2) /\
    t_rows st1 = t_rows idle_state /\ t_rows st2 = t_rows st1 /\
    t_store st2 = t_store st1 /\
    t_writes st1 = S (t_writes idle_state) /\ t_writes st2 = S (t_writes st1).
Proof.
  do 4 eexists. split; [reflexivity|]. split; [reflexivity|].
  repeat split; reflexivity.
Qed.

(** ** C3 *)

(** Claim C3 does not hold: for an optional Python step whose script exits
    with any code [c], the script captures [c] in [analysis_status], but
    [echo $? > exit_status.log] runs after the [if [ $analysis_status -ne 0 ]]
    compound and writes that compound's status, which is 0. *)
Theorem optional_step_marker_not_captured_code (c : Z) :
  exists l,
    Script.generate_workflow_steps analysis_env [analysis_step] 1 "/r/batch_1"
      "/r/batch_1/cif_file_list.txt" = Ok l /\
    let s := Script.final_state
               (Script.exec_list (fun _ => c) (fun _ => None) l (Script.sh_init "/home")) in
    Script.var s "analysis_status" = Some c /\
    Script.lookup "/r/batch_1/analysis/exit_status.log" (Script.sh_files s) = Some "0".
Proof.
  eexists. split; [vm_compute; reflexivity|].
  cbv zeta. cbn -[z_str]. destruct (c =? 0); split; reflexivity.
Qed.

(** ** C4 *)

(** Claim C4 does not hold: when the scheduler executables are missing,
    [get_job_status] (for any job id but dry-run) and [submit_job] raise
    [FileNotFoundError] to the caller, since they only catch
    [CalledProcessError]; [get_queue_jobs] does return an empty set. *)
Theorem gateway_raises_without_cli :
  (forall fs j, get_job_status no_cli fs j None =
     if String.eqb j "dry-run" then Ok "DRY-RUN" else Raise FileNotFoundError) /\
  (forall p, submit_job no_cli (Some p) true false = Raise FileNotFoundError) /\
  get_queue_jobs no_cli = Ok [].
Proof.
  split; [|split].
  - intros fs j. unfold get_job_status. simpl. destruct (String.eqb j "dry-run"); reflexivity.
  - intros p. reflexivity.
  - reflexivity.
Qed.

(** ** C5 *)

(** Claim C5 does not hold.  Whenever the fresh reconciliation pass
    reports at least as many active jobs as the concurrency cap,
    [submit_next_job] returns false and submits nothing.  But in Scenario
    D the pass never counts the submitted jobs: the five never-submitted
    rows read from job_status.csv have NaN job ids, so the [job_id]
    column is [float64]; the appended job ids become 101.0, 102.0, 103.0,
    whose [str] is never in the queue, and the rows stay PENDING because
    the string mask never matches a number.  Three calls in one tick all
    submit batch 1, and a later pass with the three jobs queued still
    reports no active job. *)
Theorem submit_next_job_float_ids_exceed_cap :
  (forall cfg sc fs dry now st running st_r,
     Typed.get_running_jobs cfg sc fs now st = Ok (running, st_r) ->
     tc_cap (Typed.base cfg) <= Z.of_nat (List.length running) ->
     Typed.submit_next_job cfg sc fs dry now st = Ok (false, st_r)) /\
  tc_cap (Typed.base Typed.scenD_cfg) = 2 /\
  Typed.t_jdtype Typed.scenD_state = Typed.DFloat /\
  exists st',
    Typed.scenD_run = Ok ([true; true; true], st') /\
    map (fun r => (Typed.r_batch r, Typed.r_job r))
        (filter (fun r => String.eqb (Typed.r_status r) "PENDING") (Typed.t_rows st'))
      = [(1, Some (Typed.JFloat 101)); (1, Some (Typed.JFloat 102));
         (1, Some (Typed.JFloat 103))] /\
    exists st'',
      Typed.get_running_jobs Typed.scenD_cfg (queue_sched ["101"; "102"; "103"] 104)
        empty_fs 13 st' = Ok ([], st'').
Proof.
  split; [|split; [reflexivity|split; [reflexivity|]]].
  - intros cfg sc fs dry now st running st_r Hrun Hcap.
    unfold Typed.submit_next_job. rewrite Hrun. simpl.
    apply Z.leb_le in Hcap. rewrite Hcap. reflexivity.
  - eexists. split; [vm_compute; reflexivity|].
    split; [vm_compute; reflexivity|].
    eexists. vm_compute. reflexivity.
Qed.

Lemma submit_next_job_float_ids_exceed_cap_witness :
  exists running st_r,
    Typed.get_running_jobs Typed.scenD_cfg (queue_sched ["101"; "102"] 103) empty_fs 12
      Typed.busy_state = Ok (running, st_r) /\
    tc_cap (Typed.base Typed.scenD_cfg) <= Z.of_nat (List.length running) /\
    Typed.submit_next_job Typed.scenD_cfg (queue_sched ["101"; "102"] 103) empty_fs false 12
      Typed.busy_state = Ok (false, st_r).
Proof.
  destruct (Typed.get_running_jobs Typed.scenD_cfg (queue_sched ["101"; "102"] 103) empty_fs 12
              Typed.busy_state) as [[running st_r]|e] eqn:E; [|vm_compute in E; discriminate].
  assert (Hcap : tc_cap (Typed.base Typed.scenD_cfg) <= Z.of_nat (List.length running)).
  { vm_compute in E. inversion E. vm_compute. discriminate. }
  exists running, st_r. split; [reflexivity|]. split; [exact Hcap|].
  exact (proj1 submit_next_job_float_ids_exceed_cap _ _ _ false _ _ _ _ E Hcap).
Defined.

(** ** C10 *)

(** Claim C10 does not hold: two PENDING rows of batch 1 without parameter
    matrix ([param_combination_id] 'NA', read back as NaN) stay both
    active after [clean_job_status], which fixes nothing, because
    [groupby] drops the groups whose key holds NaN. *)
Theorem clean_job_status_keeps_duplicate_pending :
  List.length (filter (fun r => String.eqb (r_status r) "PENDING") (t_rows dup_state)) = 2%nat /\
  (forall r, In r (t_rows dup_state) -> r_batch r = 1 /\ r_param r = None) /\
  clean_job_status 50 dup_state = (0%nat, [], dup_state).
Proof.
  split; [reflexivity|]. split.
  - intros r [<- | [<- | []]]; split; reflexivity.
  - vm_compute. reflexivity.
Qed.

(* ================================================================== *)
(** * Further properties of the code *)

(** ** Decimal printing and [int()] *)

Lemma digit_spec (d : Z) : 0 <= d < 10 ->
  is_digit (digit d) = true /\ Z.of_nat (nat_of_ascii (digit d) - 48) = d.
Proof.
  intros Hd. unfold digit, is_digit.
  assert (Hn : (48 + Z.to_nat d < 256)%nat) by lia.
  rewrite nat_ascii_embedding by exact Hn.
  split; [apply andb_true_intro; split; apply Nat.leb_le; lia | lia].
Qed.

Lemma digit_mod_spec (n : Z) :
  is_digit (digit (n mod 10)) = true /\
  Z.of_nat (nat_of_ascii (digit (n mod 10)) - 48) = n mod 10.
Proof. apply digit_spec. apply Z.mod_pos_bound. lia. Qed.

Lemma int_digits_digits_aux (fuel : nat) (n : Z) (acc : string) (a : Z) :
  0 <= n -> n < 10 ^ Z.of_nat fuel ->
  exists k, 0 <= k /\
    int_digits (digits_aux fuel n acc) a false = int_digits acc (a * 10 ^ k + n) false.
Proof.
  revert n acc a; induction fuel as [|f IH]; intros n acc a Hn Hlt.
  - simpl in Hlt. exists 0. split; [lia|]. simpl. f_equal. lia.
  - destruct (digit_mod_spec n) as [Hd Hv].
    cbn [digits_aux]. destruct (n <? 10) eqn:E.
    + apply Z.ltb_lt in E. exists 1. split; [lia|].
      cbn [int_digits]. rewrite Hd, Hv. rewrite Z.mod_small by lia.
      f_equal; lia.
    + apply Z.ltb_ge in E.
      assert (Hq : n / 10 < 10 ^ Z.of_nat f).
      { rewrite Nat2Z.inj_succ, Z.pow_succ_r in Hlt by lia.
        apply Z.div_lt_upper_bound; lia. }
      destruct (IH (n / 10) (String (digit (n mod 10)) acc) a
                  (Z.div_pos n 10 ltac:(lia) ltac:(lia)) Hq) as [k [Hk Heq]].
      exists (k + 1). split; [lia|]. rewrite Heq. cbn [int_digits]. rewrite Hd, Hv.
      f_equal. rewrite Z.pow_add_r by lia.
      pose proof (Z.div_mod n 10 ltac:(lia)). lia.
Qed.

Definition starts_digit (s : string) : bool :=
  match s with String c _ => is_digit c | EmptyString => false end.

Lemma digits_aux_starts (fuel : nat) (n : Z) (acc : string) :
  starts_digit acc = true \/ fuel <> O -> starts_digit (digits_aux fuel n acc) = true.
Proof.
  revert n acc; induction fuel as [|f IH]; intros n acc H.
  - destruct H as [H|H]; [exact H | congruence].
  - cbn [digits_aux]. destruct (n <? 10).
    + simpl. apply digit_mod_spec.
    + apply IH. left. simpl. apply digit_mod_spec.
Qed.

Fixpoint all_chars (p : ascii -> bool) (s : string) : bool :=
  match s with
  | EmptyString => true
  | String c r => (p c && all_chars p r)%bool
  end.

Lemma digits_aux_all (p : ascii -> bool) (fuel : nat) (n : Z) (acc : string) :
  (forall d, 0 <= d < 10 -> p (digit d) = true) ->
  all_chars p acc = true -> all_chars p (digits_aux fuel n acc) = true.
Proof.
  intros Hp. revert n acc; induction fuel as [|f IH]; intros n acc H; [exact H|].
  cbn [digits_aux].
  assert (Hc : all_chars p (String (digit (n mod 10)) acc) = true).
  { simpl. rewrite Hp, H; [reflexivity|]. apply Z.mod_pos_bound. lia. }
  destruct (n <? 10); [exact Hc | apply IH, Hc].
Qed.

Lemma drop_space_id (l : list ascii) :
  forallb (fun c => negb (py_space c)) l = true -> drop_space l = l.
Proof.
  destruct l as [|c r]; simpl; [reflexivity|].
  intros H. apply andb_true_iff in H. destruct H as [H _].
  destruct (py_space c); [discriminate | reflexivity].
Qed.

Lemma all_chars_list (p : ascii -> bool) (s : string) :
  all_chars p s = forallb p (list_ascii_of_string s).
Proof. induction s as [|c r IH]; simpl; [reflexivity | rewrite IH; reflexivity]. Qed.

Lemma strip_space_id (s : string) :
  all_chars (fun c => negb (py_space c)) s = true -> strip_space s = s.
Proof.
  intros H. rewrite all_chars_list in H. unfold strip_space.
  rewrite (drop_space_id _ H).
  rewrite drop_space_id.
  - rewrite rev_involutive. apply string_of_list_ascii_of_string.
  - apply forallb_forall. intros x Hx. apply in_rev in Hx.
    rewrite forallb_forall in H. apply H, Hx.
Qed.

Lemma digit_not_space (d : Z) : 0 <= d < 10 -> negb (py_space (digit d)) = true.
Proof.
  intros Hd.
  assert (H : d = 0 \/ d = 1 \/ d = 2 \/ d = 3 \/ d = 4 \/ d = 5 \/ d = 6 \/ d = 7
              \/ d = 8 \/ d = 9) by lia.
  repeat destruct H as [-> | H]; [reflexivity .. | subst; reflexivity].
Qed.

Lemma digits_fuel_enough (n : Z) : 0 <= n -> n < 10 ^ Z.of_nat (S (Z.to_nat (Z.log2 n))).
Proof.
  intros Hn. rewrite Nat2Z.inj_succ, Z2Nat.id by apply Z.log2_nonneg.
  destruct (Z.eq_dec n 0) as [->|Hn0]; [simpl; lia|].
  destruct (Z.log2_spec n ltac:(lia)) as [_ Hhi].
  eapply Z.lt_le_trans; [exact Hhi|].
  apply Z.pow_le_mono_l. split; [lia | lia].
Qed.

Lemma int_body_digits_fuel (fuel : nat) (n : Z) : fuel <> O -> 0 <= n ->
  n < 10 ^ Z.of_nat fuel -> int_body (digits_aux fuel n "") = Some n.
Proof.
  intros Hf Hn Hlt.
  pose proof (digits_aux_starts fuel n "" (or_intror Hf)) as Hs.
  destruct (int_digits_digits_aux fuel n "" 0 Hn Hlt) as [k [_ Hk]].
  revert Hs Hk. unfold int_body.
  destruct (digits_aux fuel n "") as [|c r]; intros Hs Hk; [discriminate|].
  cbn [starts_digit] in Hs. rewrite Hs, Hk. reflexivity.
Qed.

Lemma int_body_digits (n : Z) : 0 <= n ->
  int_body (digits_aux (S (Z.to_nat (Z.log2 n))) n "") = Some n.
Proof.
  intros Hn. apply int_body_digits_fuel; [discriminate | exact Hn | apply digits_fuel_enough, Hn].
Qed.

Lemma z_str_not_space (n : Z) : 0 <= n ->
  all_chars (fun c => negb (py_space c)) (digits_aux (S (Z.to_nat (Z.log2 n))) n "") = true.
Proof. intros _. apply digits_aux_all; [apply digit_not_space | reflexivity]. Qed.

Lemma digits_first_not_sign_fuel (fuel : nat) (n : Z) : fuel <> O ->
  exists c r, digits_aux fuel n "" = String c r /\
    Ascii.eqb c "-" = false /\ Ascii.eqb c "+" = false.
Proof.
  intros Hf.
  pose proof (digits_aux_starts fuel n "" (or_intror Hf)) as Hs.
  revert Hs. destruct (digits_aux fuel n "") as [|c r]; intros Hs; [discriminate|].
  exists c, r. split; [reflexivity|]. cbn [starts_digit] in Hs.
  unfold is_digit in Hs. apply andb_true_iff in Hs. destruct Hs as [H1 H2].
  apply Nat.leb_le in H1, H2.
  split; apply Ascii.eqb_neq; intros ->; cbn in H1, H2; lia.
Qed.

Lemma digits_first_not_sign (n : Z) :
  exists c r, digits_aux (S (Z.to_nat (Z.log2 n))) n "" = String c r /\
    Ascii.eqb c "-" = false /\ Ascii.eqb c "+" = false.
Proof. apply digits_first_not_sign_fuel. discriminate. Qed.

Lemma py_int_z_str (n : Z) : py_int (z_str n) = Some n.
Proof.
  unfold z_str, py_int. destruct (n <? 0) eqn:Hneg.
  - apply Z.ltb_lt in Hneg.
    rewrite strip_space_id.
    + cbv beta iota. rewrite Ascii.eqb_refl. rewrite int_body_digits by lia.
      cbn [option_map]. f_equal. lia.
    + simpl. apply z_str_not_space. lia.
  - apply Z.ltb_ge in Hneg.
    rewrite strip_space_id by (apply z_str_not_space; lia).
    destruct (digits_first_not_sign n) as [c [r [E [E1 E2]]]].
    rewrite E, E1, E2. rewrite <- E. apply int_body_digits. exact Hneg.
Qed.

Lemma z_str_inj (a b : Z) : z_str a = z_str b -> a = b.
Proof.
  intros H. pose proof (py_int_z_str a) as Ha. rewrite H, py_int_z_str in Ha.
  congruence.
Qed.

(** ** Batch files and sub-job ids *)

Lemma string_app_inv_l (p s t : string) : p ++ s = p ++ t -> s = t.
Proof. induction p as [|c r IH]; simpl; intros H; [exact H | injection H; exact IH]. Qed.

Lemma substring_0_length (t : string) : substring 0 (String.length t) t = t.
Proof. induction t as [|c r IH]; simpl; [reflexivity | rewrite IH; reflexivity]. Qed.

Lemma string_length_app (s t : string) :
  String.length (s ++ t) = (String.length s + String.length t)%nat.
Proof. induction s as [|c r IH]; simpl; [reflexivity | rewrite IH; reflexivity]. Qed.

Lemma substring_app_r (s t : string) :
  substring (String.length s) (String.length t) (s ++ t) = t.
Proof. induction s as [|c r IH]; simpl; [apply substring_0_length | exact IH]. Qed.

Lemma ends_with_app (s suf : string) : ends_with suf (s ++ suf) = true.
Proof.
  unfold ends_with. rewrite string_length_app.
  replace (String.length s + String.length suf - String.length suf)%nat
    with (String.length s) by lia.
  rewrite substring_app_r, String.eqb_refl, andb_true_r.
  apply Nat.leb_le. lia.
Qed.

Lemma repl_aux_skip (o : ascii) (old' new s t : string) :
  all_chars (fun c => negb (Ascii.eqb c o)) s = true ->
  repl_aux (String o old') new 0 (s ++ t) = s ++ repl_aux (String o old') new 0 t.
Proof.
  induction s as [|c r IH]; intros H; [reflexivity|].
  cbn [all_chars] in H. apply andb_true_iff in H. destruct H as [Hc H].
  cbn [append repl_aux String.prefix].
  destruct (ascii_dec o c) as [->|_]; [rewrite Ascii.eqb_refl in Hc; discriminate|].
  rewrite IH by exact H. reflexivity.
Qed.

Lemma z_str_chars (p : ascii -> bool) (z : Z) :
  p "-"%char = true -> (forall d, 0 <= d < 10 -> p (digit d) = true) ->
  all_chars p (z_str z) = true.
Proof.
  intros Hm Hd. unfold z_str. destruct (z <? 0).
  - cbn [all_chars]. rewrite Hm. apply digits_aux_all; [exact Hd | reflexivity].
  - apply digits_aux_all; [exact Hd | reflexivity].
Qed.

Lemma digit_cases (P : ascii -> Prop) :
  P "0"%char -> P "1"%char -> P "2"%char -> P "3"%char -> P "4"%char ->
  P "5"%char -> P "6"%char -> P "7"%char -> P "8"%char -> P "9"%char ->
  forall d, 0 <= d < 10 -> P (digit d).
Proof.
  intros H0 H1 H2 H3 H4 H5 H6 H7 H8 H9 d Hd.
  assert (H : d = 0 \/ d = 1 \/ d = 2 \/ d = 3 \/ d = 4 \/ d = 5 \/ d = 6 \/ d = 7
              \/ d = 8 \/ d = 9) by lia.
  repeat destruct H as [-> | H]; [assumption .. | subst; assumption].
Qed.

Lemma string_app_empty (s : string) : s ++ "" = s.
Proof. induction s as [|c r IH]; simpl; [reflexivity | rewrite IH; reflexivity]. Qed.

Lemma prefix_empty (s : string) : String.prefix "" s = true.
Proof. destruct s; reflexivity. Qed.

Lemma replace_batch_prefix (i : Z) :
  replace_str "batch_" "" (batch_csv_name i) = z_str i ++ ".csv".
Proof.
  unfold replace_str, batch_csv_name. cbn -[z_str String.prefix].
  cbn [String.prefix]. rewrite prefix_empty. cbn -[z_str].
  apply repl_aux_skip.
  apply z_str_chars; [reflexivity|].
  apply (digit_cases (fun c => negb (Ascii.eqb c "b") = true)); reflexivity.
Qed.

Lemma replace_csv_suffix (i : Z) :
  replace_str ".csv" "" (z_str i ++ ".csv") = z_str i.
Proof.
  unfold replace_str. cbn -[z_str repl_aux].
  rewrite repl_aux_skip.
  - apply string_app_empty.
  - apply z_str_chars; [reflexivity|].
    apply (digit_cases (fun c => negb (Ascii.eqb c ".") = true)); reflexivity.
Qed.

Lemma parse_batch_csv_name (i : Z) :
  py_int (replace_str ".csv" "" (replace_str "batch_" "" (batch_csv_name i))) = Some i.
Proof. rewrite replace_batch_prefix, replace_csv_suffix. apply py_int_z_str. Qed.

Lemma fold_num_step_ge (l : list string) (m : Z) : m <= fold_left num_step l m.
Proof.
  revert m; induction l as [|f r IH]; intros m; simpl; [lia|].
  eapply Z.le_trans; [|apply IH]. unfold num_step.
  destruct (py_int _); lia.
Qed.

Lemma fold_num_step_in (l : list string) (m : Z) (f : string) (v : Z) :
  In f l -> py_int (replace_str ".csv" "" (replace_str "batch_" "" f)) = Some v ->
  v <= fold_left num_step l m.
Proof.
  revert m; induction l as [|g r IH]; intros m Hin Hv; [destruct Hin|].
  destruct Hin as [<- | Hin]; simpl.
  - eapply Z.le_trans; [|apply fold_num_step_ge]. unfold num_step. rewrite Hv. lia.
  - apply IH; assumption.
Qed.

Lemma fold_num_step_le (l : list string) (m k : Z) :
  m <= k ->
  (forall f v, In f l -> py_int (replace_str ".csv" "" (replace_str "batch_" "" f)) = Some v ->
               v <= k) ->
  fold_left num_step l m <= k.
Proof.
  revert m; induction l as [|f r IH]; intros m Hm H; simpl; [exact Hm|].
  apply IH; [|intros g v Hg; apply H; right; exact Hg].
  unfold num_step. destruct (py_int _) eqn:E; [|exact Hm].
  specialize (H f z (or_introl eq_refl) E). lia.
Qed.

Lemma fold_num_step_none (l : list string) (m : Z) :
  (forall f, In f l -> py_int (replace_str ".csv" "" (replace_str "batch_" "" f)) = None) ->
  fold_left num_step l m = m.
Proof.
  revert m; induction l as [|f r IH]; intros m H; simpl; [reflexivity|].
  unfold num_step at 2. rewrite (H f (or_introl eq_refl)).
  apply IH. intros g Hg. apply H. right. exact Hg.
Qed.

Lemma get_num_batches_listing (l : list string) (ncif size : nat) :
  (exists f, In f l /\ (String.prefix "batch_" f && ends_with ".csv" f)%bool = true) ->
  get_num_batches (Some l) ncif size =
  Some (fold_left num_step
          (filter (fun f => (String.prefix "batch_" f && ends_with ".csv" f)%bool) l) 0).
Proof.
  intros [f [Hin Hf]]. unfold get_num_batches.
  destruct (filter _ l) eqn:E.
  - exfalso. assert (In f (filter (fun f => (String.prefix "batch_" f && ends_with ".csv" f)%bool) l))
      by (apply filter_In; auto). rewrite E in H. destruct H.
  - reflexivity.
Qed.

Lemma string_app_assoc (s t u : string) : s ++ (t ++ u) = (s ++ t) ++ u.
Proof. induction s as [|c r IH]; simpl; [reflexivity | rewrite IH; reflexivity]. Qed.

Lemma batch_csv_name_is_batch_file (i : Z) : is_batch_file (batch_csv_name i) = true.
Proof.
  unfold is_batch_file. apply andb_true_iff. split.
  - unfold batch_csv_name. cbn -[z_str String.prefix].
    cbn [String.prefix]. apply prefix_empty.
  - unfold batch_csv_name. rewrite string_app_assoc. apply ends_with_app.
Qed.

(** [get_num_batches] with a batch directory that holds [batch_k.csv]
    and otherwise only batch files [batch_i.csv] with [i <= k] (any
    order, gaps allowed, other files ignored) returns [k], whatever the
    number of CIF files and the batch size. *)
Theorem get_num_batches_largest_batch (l : list string) (k : Z) (num_cif_files batch_size : nat) :
  0 <= k ->
  In (batch_csv_name k) l ->
  (forall f, In f l -> is_batch_file f = true -> exists i, i <= k /\ f = batch_csv_name i) ->
  get_num_batches (Some l) num_cif_files batch_size = Some k.
Proof.
  intros Hk Hin Hall.
  rewrite get_num_batches_listing
    by (exists (batch_csv_name k); split; [exact Hin | apply batch_csv_name_is_batch_file]).
  f_equal. apply Z.le_antisymm.
  - apply fold_num_step_le; [exact Hk|].
    intros f v Hf Hv. apply filter_In in Hf. destruct Hf as [Hf Hb].
    destruct (Hall f Hf Hb) as [i [Hi ->]].
    rewrite parse_batch_csv_name in Hv. injection Hv as <-. exact Hi.
  - apply (fold_num_step_in _ _ (batch_csv_name k)); [|apply parse_batch_csv_name].
    apply filter_In. split; [exact Hin | apply batch_csv_name_is_batch_file].
Qed.

Lemma get_num_batches_largest_batch_witness :
  get_num_batches (Some ["batch_2.csv"; "batch_10.csv"; "notes.txt"; "batch_1.csv"]) 0 0
  = Some 10.
Proof.
  apply get_num_batches_largest_batch; [lia | simpl; tauto |].
  intros f Hf Hb. simpl in Hf.
  destruct Hf as [<- | [<- | [<- | [<- | []]]]].
  - exists 2. split; [lia | reflexivity].
  - exists 10. split; [lia | reflexivity].
  - discriminate Hb.
  - exists 1. split; [lia | reflexivity].
Defined.

(** When the batch directory holds batch files but none of their names
    parses as an integer (for instance [batch_final.csv]), [get_num_batches]
    returns 0, even if there are CIF files to batch. *)
Theorem get_num_batches_unparsable_names (l : list string) (num_cif_files batch_size : nat) :
  (exists f, In f l /\ is_batch_file f = true) ->
  (forall f, In f l -> is_batch_file f = true ->
             py_int (replace_str ".csv" "" (replace_str "batch_" "" f)) = None) ->
  get_num_batches (Some l) num_cif_files batch_size = Some 0.
Proof.
  intros Hex Hnone. rewrite get_num_batches_listing by exact Hex.
  f_equal. apply fold_num_step_none.
  intros f Hf. apply filter_In in Hf. apply Hnone; apply Hf.
Qed.

Lemma get_num_batches_unparsable_names_witness :
  get_num_batches (Some ["batch_final.csv"; "batch_.csv"]) 10 5 = Some 0.
Proof.
  apply get_num_batches_unparsable_names.
  - exists "batch_final.csv". split; [left; reflexivity | reflexivity].
  - intros f Hf _. destruct Hf as [<- | [<- | []]]; reflexivity.
Defined.

(** Without batch files (no directory, or a directory without
    [batch_*.csv]) and with a positive batch size, [get_num_batches] returns
    the number of batches [_split_into_batches] makes from the CIF files. *)
Theorem get_num_batches_fallback {A} (files : list A) (listing : option (list string))
    (batch_size : nat) :
  (0 < batch_size)%nat ->
  match listing with Some l => forall f, In f l -> is_batch_file f = false | None => True end ->
  get_num_batches listing (List.length files) batch_size
  = Some (Z.of_nat (List.length (split_into_batches batch_size files))).
Proof.
  intros Hs Hl.
  assert (E : match listing with
              | Some l => filter (fun f => (String.prefix "batch_" f && ends_with ".csv" f)%bool) l
              | None => [] end = []).
  { destruct listing as [l|]; [|reflexivity].
    induction l as [|f r IH]; [reflexivity|]. simpl.
    pose proof (Hl f (or_introl eq_refl)) as Hf. unfold is_batch_file in Hf. rewrite Hf.
    apply IH. intros g Hg. apply Hl. right. exact Hg. }
  unfold get_num_batches. rewrite E.
  unfold split_into_batches. rewrite length_map, length_seq.
  destruct (Nat.eqb_spec (List.length files) 0) as [E0|E0].
  - rewrite E0. unfold ceil_div. rewrite Nat.div_small by lia. reflexivity.
  - destruct (Nat.eqb_spec batch_size 0); [lia | reflexivity].
Qed.

Lemma get_num_batches_fallback_witness :
  get_num_batches (Some ["README.md"]) 7 3 = Some 3.
Proof.
  refine (get_num_batches_fallback (seq 1 7) (Some ["README.md"]) 3 ltac:(lia) _).
  intros f [<- | []]. reflexivity.
Defined.

(** [get_sub_job_id] is injective: two (batch, parameter) pairs with the
    same sub-job id are equal. *)
Theorem get_sub_job_id_injective (b p b' p' : Z) :
  get_sub_job_id b p = get_sub_job_id b' p' -> b = b' /\ p = p'.
Proof.
  unfold get_sub_job_id. intros H.
  apply string_app_inv_l in H.
  change ("_param_" ++ z_str p) with (String "_" ("param_" ++ z_str p)) in H.
  change ("_param_" ++ z_str p') with (String "_" ("param_" ++ z_str p')) in H.
  assert (Hs := f_equal (split_first "_") H).
  rewrite !split_first_app in Hs by apply z_str_no_us.
  injection Hs as Hb Hp.
  split; apply z_str_inj; assumption.
Qed.

Lemma get_sub_job_id_injective_witness :
  get_sub_job_id 12 (-3) = get_sub_job_id 12 (-3) /\ 12 = 12 /\ -3 = -3.
Proof.
  split; [reflexivity|]. exact (get_sub_job_id_injective 12 (-3) 12 (-3) eq_refl).
Defined.

(** ** Parameter matrix *)

Lemma map_param_id_mapi_from {A} (f : nat -> A -> combination) (k : nat) (l : list A) :
  (forall i x, param_id (f i x) = i) ->
  map param_id (mapi_from f k l) = seq k (List.length l).
Proof.
  intros Hf. revert k; induction l as [|x r IH]; intros k; simpl; [reflexivity|].
  rewrite Hf, IH. reflexivity.
Qed.

Lemma length_mapi_from {A B} (f : nat -> A -> B) (k : nat) (l : list A) :
  List.length (mapi_from f k l) = List.length l.
Proof. revert k; induction l as [|x r IH]; intros k; simpl; [reflexivity | rewrite IH; reflexivity]. Qed.

(** In every mode the [param_id]s of the generated combinations are
    0, 1, ..., n-1 in order. *)
Theorem generate_combinations_param_ids (c : pm_config) :
  map param_id (generate_combinations c) = seq 0 (List.length (generate_combinations c)).
Proof.
  unfold generate_combinations.
  destruct (pm_parameters c) as [|p ps]; [reflexivity|].
  destruct (String.eqb (pm_mode c) "all"); [|destruct (String.eqb (pm_mode c) "custom")].
  - unfold mapi. rewrite length_mapi_from. apply map_param_id_mapi_from. reflexivity.
  - unfold mapi. rewrite length_mapi_from. apply map_param_id_mapi_from. reflexivity.
  - reflexivity.
Qed.

Lemma length_product {A} (ls : list (list A)) :
  List.length (product ls) = fold_right (fun l n => List.length l * n)%nat 1%nat ls.
Proof.
  induction ls as [|l r IH]; simpl; [reflexivity|].
  rewrite <- IH. induction l as [|x l' IHl]; simpl; [reflexivity|].
  rewrite length_app, length_map, IHl. reflexivity.
Qed.

(** In mode "all", [get_total_jobs_for_batch] is the product of the
    lengths of the axis value lists (1 without axes). *)
Theorem total_jobs_all_mode (c : pm_config) (batch_id : Z) :
  pm_mode c = "all" ->
  get_total_jobs_for_batch c batch_id
  = fold_right (fun axis n => List.length (snd axis) * n)%nat 1%nat (pm_parameters c).
Proof.
  intros Hm. unfold get_total_jobs_for_batch, generate_combinations.
  destruct (pm_parameters c) as [|p ps] eqn:Ep; [reflexivity|].
  rewrite Hm. cbn [String.eqb Ascii.eqb Bool.eqb]. cbv iota beta.
  unfold mapi. rewrite length_mapi_from, length_product, <- Ep.
  rewrite Ep. cbn [map fold_right]. f_equal.
  generalize ps. induction ps0 as [|q qs IH]; simpl; [reflexivity | rewrite IH; reflexivity].
Qed.

Lemma total_jobs_all_mode_witness :
  get_total_jobs_for_batch
    {| pm_parameters := [("temperature", [SInt 273; SInt 298; SInt 323]);
                         ("pressure", [SInt 1; SInt 10])];
       pm_mode := "all"; pm_custom := [] |} 7 = 6%nat.
Proof.
  rewrite total_jobs_all_mode by reflexivity. reflexivity.
Defined.

(** With at least one axis and a [combinations] mode other than "all"
    and "custom", the matrix counts as enabled but generates no
    combination, so a batch has 0 sub-jobs. *)
Theorem unknown_mode_enabled_without_jobs (c : pm_config) (batch_id : Z) :
  pm_parameters c <> [] -> pm_mode c <> "all" -> pm_mode c <> "custom" ->
  is_enabled c = true /\ get_total_jobs_for_batch c batch_id = 0%nat /\
  generate_combinations c = [].
Proof.
  intros Hp Ha Hc. unfold is_enabled, get_total_jobs_for_batch, generate_combinations.
  destruct (pm_parameters c) as [|p ps]; [contradiction|].
  apply String.eqb_neq in Ha, Hc. rewrite Ha, Hc. repeat split.
Qed.

Lemma unknown_mode_enabled_without_jobs_witness :
  is_enabled {| pm_parameters := [("temperature", [SInt 298])];
                pm_mode := "Custom"; pm_custom := [] |} = true.
Proof.
  refine (proj1 (unknown_mode_enabled_without_jobs _ 1 _ _ _)); discriminate.
Defined.

(** ** Batch selection and resubmission *)

Lemma in_batch_ids_base (n : Z) (b : Z) :
  In b (map (fun k => Z.of_nat k + 1) (seq 0 (Z.to_nat n))) <-> 1 <= b <= n.
Proof.
  rewrite in_map_iff. split.
  - intros [k [<- Hk]]. apply in_seq in Hk. lia.
  - intros Hb. exists (Z.to_nat (b - 1)). split; [lia|]. apply in_seq. lia.
Qed.

Lemma is_batch_in_range_bounds (lo hi : option Z) (b : Z) :
  is_batch_in_range lo hi b
  = (match lo with None => true | Some m => m <=? b end &&
     match hi with None => true | Some m => b <=? m end)%bool.
Proof.
  unfold is_batch_in_range.
  destruct lo as [m|], hi as [m'|]; simpl;
  repeat match goal with
         | |- context[?x <? ?y] => destruct (Z.ltb_spec x y)
         | |- context[?x <=? ?y] => destruct (Z.leb_spec x y)
         end; simpl; try reflexivity; lia.
Qed.

(** The batches [_get_next_batch_id] scans are exactly the ids from 1 to
    the number of batches that [JobScheduler.is_batch_in_range] accepts
    for the same [batch_range]. *)
Theorem batch_ids_match_scheduler_range (cfg : tconfig) (b : Z) :
  In b (batch_ids cfg) <->
  1 <= b <= tc_num_batches cfg /\
  is_batch_in_range (fst (scheduler_range (tc_range cfg)))
                    (snd (scheduler_range (tc_range cfg))) b = true.
Proof.
  unfold batch_ids, scheduler_range.
  destruct (tc_range cfg) as [[lo hi]|]; simpl.
  - rewrite filter_In, in_batch_ids_base, is_batch_in_range_bounds. tauto.
  - rewrite in_batch_ids_base. tauto.
Qed.

Lemma map_snd_indexed_from (k : nat) (rows : list row) :
  map snd (combine (seq k (List.length rows)) rows) = rows.
Proof.
  revert k; induction rows as [|r rs IH]; intros k; simpl; [reflexivity | rewrite IH; reflexivity].
Qed.

Lemma in_list_app (s : string) (l1 l2 : list string) :
  in_list s (l1 ++ l2)%list = (in_list s l1 || in_list s l2)%bool.
Proof. unfold in_list. apply existsb_app. Qed.

Lemma existsb_orb {A} (f g : A -> bool) (l : list A) :
  existsb (fun x => f x || g x)%bool l = (existsb f l || existsb g l)%bool.
Proof.
  induction l as [|x r IH]; simpl; [reflexivity|]. rewrite IH.
  destruct (f x), (g x), (existsb f r), (existsb g r); reflexivity.
Qed.

Lemma existsb_ext_eq {A} (f g : A -> bool) (l : list A) :
  (forall x, f x = g x) -> existsb f l = existsb g l.
Proof. intros H. induction l as [|x r IH]; simpl; [reflexivity | rewrite H, IH; reflexivity]. Qed.

Lemma filter_snd_nonempty {A} (Q : row -> bool) (xs : list (A * row)) :
  map fst (filter (fun ir => Q (snd ir)) xs) <> [] <-> existsb Q (map snd xs) = true.
Proof.
  induction xs as [|[i r] xs IH]; simpl; [split; [congruence | discriminate]|].
  destruct (Q r); simpl; [split; [reflexivity | discriminate] | exact IH].
Qed.

Lemma get_jobs_to_submit_nonempty (cfg : tconfig) (st : tstate) (b : Z) :
  get_jobs_to_submit cfg st b <> [] <->
  ((tc_resubmit cfg && batch_has st ["FAILED"; "CANCELLED"] b)
   || batch_has st ["NEVER_SUBMITTED"; "UNKNOWN"] b)%bool = true.
Proof.
  unfold get_jobs_to_submit, batch_has.
  set (P := fun r => (Z.eqb (r_batch r) b &&
                      in_list (r_status r)
                        (if tc_resubmit cfg
                         then ["NEVER_SUBMITTED"; "UNKNOWN"; "FAILED"; "CANCELLED"]
                         else ["NEVER_SUBMITTED"; "UNKNOWN"]))%bool).
  transitivity (existsb P (t_rows st) = true).
  - change (fun ir : nat * row => (Z.eqb (r_batch (snd ir)) b && _)%bool)
      with (fun ir : nat * row => P (snd ir)).
    rewrite <- (map_snd_indexed_from 0 (t_rows st)) at 2. apply filter_snd_nonempty.
  - assert (E : forall r, P r =
              ((tc_resubmit cfg && (Z.eqb (r_batch r) b && in_list (r_status r) ["FAILED"; "CANCELLED"]))
               || (Z.eqb (r_batch r) b && in_list (r_status r) ["NEVER_SUBMITTED"; "UNKNOWN"]))%bool).
    { intros r. unfold P. destruct (tc_resubmit cfg).
      - change ["NEVER_SUBMITTED"; "UNKNOWN"; "FAILED"; "CANCELLED"]
          with (["NEVER_SUBMITTED"; "UNKNOWN"] ++ ["FAILED"; "CANCELLED"])%list.
        rewrite in_list_app.
        destruct (Z.eqb _ _), (in_list _ ["NEVER_SUBMITTED"; "UNKNOWN"]),
          (in_list _ ["FAILED"; "CANCELLED"]); reflexivity.
      - reflexivity. }
    rewrite (existsb_ext_eq _ _ _ E), existsb_orb.
    destruct (tc_resubmit cfg); [reflexivity|].
    simpl. replace (existsb _ (t_rows st)) with false; [reflexivity|].
    induction (t_rows st) as [|r rs IH]; simpl; [reflexivity | exact IH].
Qed.

Lemma batch_ids_pos (cfg : tconfig) (b : Z) : In b (batch_ids cfg) -> 1 <= b.
Proof.
  unfold batch_ids. intros H.
  destruct (tc_range cfg) as [[lo hi]|]; [apply filter_In in H; destruct H as [H _]|];
  apply in_batch_ids_base in H; lia.
Qed.

Lemma get_next_batch_id_cases (cfg : tconfig) (st : tstate) :
  let eligible x := ((tc_resubmit cfg && batch_has st ["FAILED"; "CANCELLED"] x)
                     || batch_has st ["NEVER_SUBMITTED"; "UNKNOWN"] x)%bool in
  (get_next_batch_id cfg st = -1 /\ forall x, In x (batch_ids cfg) -> eligible x = false) \/
  (In (get_next_batch_id cfg st) (batch_ids cfg) /\ eligible (get_next_batch_id cfg st) = true /\
   (tc_resubmit cfg = true ->
    (exists x, In x (batch_ids cfg) /\ batch_has st ["FAILED"; "CANCELLED"] x = true) ->
    batch_has st ["FAILED"; "CANCELLED"] (get_next_batch_id cfg st) = true)).
Proof.
  intros eligible. unfold get_next_batch_id.
  destruct (tc_resubmit cfg) eqn:Er.
  - destruct (find (batch_has st ["FAILED"; "CANCELLED"]) (batch_ids cfg)) as [x|] eqn:Ef.
    + apply find_some in Ef. destruct Ef as [Hin Hx]. right.
      split; [exact Hin|]. split; [unfold eligible; rewrite ?Er, Hx; reflexivity|].
      intros _ _. exact Hx.
    + pose proof (find_none _ _ Ef) as Hnf.
      destruct (find (batch_has st ["NEVER_SUBMITTED"; "UNKNOWN"]) (batch_ids cfg)) as [y|] eqn:Eg.
      * apply find_some in Eg. destruct Eg as [Hin Hy]. right.
        split; [exact Hin|]. split; [unfold eligible; rewrite Hy, orb_true_r; reflexivity|].
        intros _ [x [Hx Hfx]]. rewrite (Hnf x Hx) in Hfx. discriminate.
      * pose proof (find_none _ _ Eg) as Hng. left. split; [reflexivity|].
        intros x Hx. unfold eligible. rewrite ?Er, (Hnf x Hx), (Hng x Hx). reflexivity.
  - destruct (find (batch_has st ["NEVER_SUBMITTED"; "UNKNOWN"]) (batch_ids cfg)) as [y|] eqn:Eg.
    + apply find_some in Eg. destruct Eg as [Hin Hy]. right.
      split; [exact Hin|]. split; [unfold eligible; rewrite Hy, orb_true_r; reflexivity|].
      intros H. discriminate H.
    + pose proof (find_none _ _ Eg) as Hng. left. split; [reflexivity|].
      intros x Hx. unfold eligible. rewrite ?Er, (Hng x Hx). reflexivity.
Qed.

Lemma get_jobs_to_submit_nil (cfg : tconfig) (st : tstate) (b : Z) :
  get_jobs_to_submit cfg st b = [] <->
  ((tc_resubmit cfg && batch_has st ["FAILED"; "CANCELLED"] b)
   || batch_has st ["NEVER_SUBMITTED"; "UNKNOWN"] b)%bool = false.
Proof.
  pose proof (get_jobs_to_submit_nonempty cfg st b) as H.
  destruct (get_jobs_to_submit cfg st b) as [|i l];
  destruct ((tc_resubmit cfg && _) || _)%bool; intuition congruence.
Qed.

(** [_get_next_batch_id] returns -1 exactly when no scanned batch has a
    job [get_jobs_to_submit] would return; otherwise it returns a scanned
    batch that has one; with resubmission enabled, a batch with a FAILED or
    CANCELLED row is preferred whenever one is scanned. *)
Theorem get_next_batch_id_choice (cfg : tconfig) (st : tstate) :
  (get_next_batch_id cfg st = -1 <->
     forall b, In b (batch_ids cfg) -> get_jobs_to_submit cfg st b = []) /\
  (get_next_batch_id cfg st <> -1 ->
     In (get_next_batch_id cfg st) (batch_ids cfg) /\
     get_jobs_to_submit cfg st (get_next_batch_id cfg st) <> []) /\
  (tc_resubmit cfg = true ->
     (exists b, In b (batch_ids cfg) /\ batch_has st ["FAILED"; "CANCELLED"] b = true) ->
     batch_has st ["FAILED"; "CANCELLED"] (get_next_batch_id cfg st) = true).
Proof.
  destruct (get_next_batch_id_cases cfg st) as [[Hm Hall] | [Hin [Hel Hpri]]].
  - split; [|split].
    + split; [intros _ b Hb; apply get_jobs_to_submit_nil, Hall, Hb | intros _; exact Hm].
    + intros H. contradiction.
    + intros Hr [b [Hb Hf]]. exfalso. specialize (Hall b Hb).
      rewrite Hr, Hf in Hall. discriminate.
  - pose proof (batch_ids_pos _ _ Hin) as Hpos.
    split; [|split; [|exact Hpri]].
    + split; [lia|]. intros H. specialize (H _ Hin).
      apply get_jobs_to_submit_nil in H. rewrite Hel in H. discriminate.
    + intros _. split; [exact Hin|]. apply get_jobs_to_submit_nonempty. exact Hel.
Qed.

Lemma update_where_none (m : row -> bool) (f : row -> row) (rs : list row) :
  existsb m rs = false -> update_where m f rs = rs.
Proof.
  unfold update_where. induction rs as [|r rs IH]; simpl; [reflexivity|].
  intros H. apply orb_false_iff in H. destruct H as [H1 H2]. rewrite H1, IH by exact H2.
  reflexivity.
Qed.

Lemma mark_rows (cfg : tconfig) (b : Z) (st : tstate) :
  t_rows (mark_jobs_for_resubmission cfg b st)
  = if tc_resubmit cfg then update_where (resubmit_mask b) reset_row (t_rows st)
    else t_rows st.
Proof.
  unfold mark_jobs_for_resubmission.
  destruct (tc_resubmit cfg); simpl; [|reflexivity].
  destruct (existsb (resubmit_mask b) (t_rows st)) eqn:E; [reflexivity|].
  symmetry. apply update_where_none. exact E.
Qed.

Lemma mark_failed (cfg : tconfig) (b : Z) (st : tstate) :
  t_failed (mark_jobs_for_resubmission cfg b st) = t_failed st.
Proof.
  unfold mark_jobs_for_resubmission.
  destruct (tc_resubmit cfg); simpl; [|reflexivity].
  destruct (existsb _ _); reflexivity.
Qed.

Lemma indexed_from_map (g : row -> row) (k : nat) (rows : list row) :
  combine (seq k (List.length (map g rows))) (map g rows)
  = map (fun ir => (fst ir, g (snd ir))) (combine (seq k (List.length rows)) rows).
Proof.
  rewrite length_map. revert k.
  induction rows as [|r rs IH]; intros k; simpl; [reflexivity | rewrite IH; reflexivity].
Qed.

Lemma map_fst_filter_map {A B} (P : A * B -> bool) (h : B -> B) (xs : list (A * B)) :
  (forall x, P (fst x, h (snd x)) = P x) ->
  map fst (filter P (map (fun ir => (fst ir, h (snd ir))) xs)) = map fst (filter P xs).
Proof.
  intros H. induction xs as [|x xs IH]; simpl; [reflexivity|].
  rewrite H. destruct (P x); simpl; rewrite IH; reflexivity.
Qed.

Lemma existsb_resubmit_mask_reset (b : Z) (rows : list row) :
  existsb (resubmit_mask b) (update_where (resubmit_mask b) reset_row rows) = false.
Proof.
  unfold update_where. induction rows as [|r rs IH]; simpl; [reflexivity|].
  rewrite IH, orb_false_r.
  destruct (resubmit_mask b r) eqn:E; [|exact E].
  unfold resubmit_mask. simpl. apply andb_false_r.
Qed.

(** [mark_jobs_for_resubmission(b)] leaves [get_jobs_to_submit] unchanged
    for every batch, leaves no FAILED or CANCELLED row in [b] when
    resubmission is enabled, leaves every other row in place, keeps the
    number of rows and the failed-batch set, and is idempotent. *)
Theorem mark_jobs_for_resubmission_effect (cfg : tconfig) (b : Z) (st : tstate) :
  let st' := mark_jobs_for_resubmission cfg b st in
  (forall b', get_jobs_to_submit cfg st' b' = get_jobs_to_submit cfg st b') /\
  (tc_resubmit cfg = true -> batch_has st' ["FAILED"; "CANCELLED"] b = false) /\
  (forall i r, nth_error (t_rows st) i = Some r -> resubmit_mask b r = false ->
               nth_error (t_rows st') i = Some r) /\
  List.length (t_rows st') = List.length (t_rows st) /\
  t_failed st' = t_failed st /\
  mark_jobs_for_resubmission cfg b st' = st'.
Proof.
  intros st'.
  assert (Hr := mark_rows cfg b st). fold st' in Hr.
  split; [|split; [|split; [|split; [|split]]]].
  - intros b'. unfold get_jobs_to_submit. rewrite Hr.
    destruct (tc_resubmit cfg) eqn:Er; [|reflexivity].
    unfold indexed, update_where. rewrite indexed_from_map.
    apply (map_fst_filter_map _ (fun r => if resubmit_mask b r then reset_row r else r)).
    intros [i r]. simpl.
    destruct (resubmit_mask b r) eqn:Em; [|reflexivity]. simpl.
    unfold resubmit_mask in Em. apply andb_true_iff in Em. destruct Em as [_ Hs].
    unfold in_list in Hs. simpl in Hs. rewrite Hs, !orb_true_r. reflexivity.
  - intros Er. unfold batch_has. rewrite Hr, Er. apply existsb_resubmit_mask_reset.
  - intros i r Hi Hm. rewrite Hr.
    destruct (tc_resubmit cfg); [|exact Hi].
    unfold update_where. rewrite nth_error_map, Hi. simpl. rewrite Hm. reflexivity.
  - rewrite Hr. destruct (tc_resubmit cfg); [apply length_map | reflexivity].
  - apply mark_failed.
  - unfold mark_jobs_for_resubmission at 1.
    destruct (tc_resubmit cfg) eqn:Er; [|reflexivity]. simpl.
    rewrite Hr, existsb_resubmit_mask_reset. reflexivity.
Qed.

(** ** Scheduler gateway *)

Lemma all_digits_take_digits (s : string) : all_digits_aux (take_digits s) = true.
Proof.
  induction s as [|c r IH]; simpl; [reflexivity|].
  destruct (is_digit c) eqn:E; simpl; [rewrite E; exact IH | reflexivity].
Qed.

Lemma search_digits_after_int_ok (pat s d : string) :
  search_digits_after pat s = Some d -> int_ok d = true.
Proof.
  induction s as [|c r IH]; intros H; cbn [search_digits_after] in H;
  (destruct (if String.prefix pat _ then _ else None) as [d'|] eqn:Eh;
   [ injection H as <-; destruct (String.prefix pat _); [|discriminate];
     remember (take_digits _) as t eqn:Et;
     destruct (String.eqb t "") eqn:E; [discriminate|];
     injection Eh as <-; unfold int_ok; rewrite E; subst t;
     rewrite all_digits_take_digits; reflexivity
   | ]).
  - discriminate H.
  - exact (IH H).
Qed.

(** When [submit_job] (with the [batch_id] bookkeeping) returns a job id,
    it is either "dry-run", returned in dry-run mode with nothing
    recorded, or a non-empty string of decimal digits returned by a real
    submission and recorded in [batch_job_map] with its batch. *)
Theorem submit_job_returned_id (cfg : tconfig) (sc : sched) (fs : fsnap)
    (job_map : list (string * Z)) (script_path : option string)
    (script_exists dry_run : bool) (batch_id : Z)
    (j : string) (m : list (string * Z)) (wrote : bool) :
  Typed.submit_job cfg sc fs job_map script_path script_exists dry_run batch_id
    = Ok (Some j, m, wrote) ->
  (j = "dry-run" /\ dry_run = true /\ m = job_map /\ wrote = false) \/
  (dry_run = false /\ int_ok j = true /\ m = Typed.dict_set job_map j batch_id).
Proof.
  unfold Typed.submit_job. intros H.
  destruct script_path as [path|]; [|discriminate].
  destruct script_exists; [|discriminate]. cbn [negb] in H.
  destruct dry_run.
  - injection H as <- <- <-. left. auto.
  - right. split; [reflexivity|].
    unfold catch_cpe, run_checked in H.
    destruct (sbatch sc path) as [rc out|]; [|discriminate].
    destruct (rc =? 0); cbn [bind] in H; [|discriminate].
    destruct (contains "Submitted batch job" (strip out)); [|discriminate].
    assert (Hd : forall d, (search_digits_after "Submitted batch job " (strip out) = Some d \/
                           search_digits_after "" (strip out) = Some d) ->
                 int_ok d = true).
    { intros d [Hs | Hs]; eapply search_digits_after_int_ok; exact Hs. }
    destruct (search_digits_after "Submitted batch job " (strip out)) as [d|] eqn:E1;
      [|destruct (search_digits_after "" (strip out)) as [d|] eqn:E2; [|discriminate]];
    (destruct (String.eqb d ""); [discriminate|]);
    (destruct (Typed.update_job_status_csv cfg sc fs (Typed.dict_set job_map d batch_id) d batch_id)
       as [w|e]; cbn [bind] in H;
     [injection H as <- <- <-; split; [apply Hd; auto | reflexivity]
     | destruct e; discriminate]).
Qed.

Lemma first_job_state_nonempty (lines : list string) (s : string) :
  first_job_state lines = Some s -> s <> "".
Proof.
  induction lines as [|l r IH]; simpl; [discriminate|].
  destruct (String.eqb l "") eqn:E; simpl; [exact IH|].
  destruct (contains "." l); simpl; [exact IH|].
  intros H. injection H as <-. apply String.eqb_neq. exact E.
Qed.

(** [get_job_status] never returns the empty string. *)
Theorem get_job_status_nonempty (sc : sched) (fs : fsnap) (job_id : string)
    (batch_output_dir : option string) (s : string) :
  get_job_status sc fs job_id batch_output_dir = Ok s -> s <> "".
Proof.
  unfold get_job_status.
  assert (Hrest :
    (if String.eqb job_id "dry-run" then Ok "DRY-RUN" else
      catch_cpe "UNKNOWN"
        (out <- run_checked (sq_job sc job_id) ;;
         let output := strip out in
         if negb (String.eqb output "") then Ok output
         else sacct_out <- run_checked (sacct_job sc job_id) ;;
              let sacct_output := strip sacct_out in
              if negb (String.eqb sacct_output "") then
                match first_job_state (split_on "010" sacct_output) with
                | Some st => Ok st
                | None => Ok "UNKNOWN"
                end
              else Ok "UNKNOWN")) = Ok s -> s <> "").
  { destruct (String.eqb job_id "dry-run"); [intros H; injection H as <-; discriminate|].
    unfold catch_cpe, run_checked.
    destruct (sq_job sc job_id) as [rc out|]; [|intros H; discriminate H].
    destruct (rc =? 0); cbn [bind]; [|intros H; injection H as <-; discriminate].
    destruct (String.eqb (strip out) "") eqn:E; cbn [negb].
    2: { intros H; injection H as <-. apply String.eqb_neq. exact E. }
    destruct (sacct_job sc job_id) as [rc' out'|]; [|intros H; discriminate H].
    destruct (rc' =? 0); cbn [bind]; [|intros H; injection H as <-; discriminate].
    destruct (String.eqb (strip out') "") eqn:E'; cbn [negb];
      [intros H; injection H as <-; discriminate|].
    destruct (first_job_state _) as [st|] eqn:Ef; intros H; injection H as <-;
      [exact (first_job_state_nonempty _ _ Ef) | discriminate]. }
  destruct batch_output_dir as [d|]; [|exact Hrest].
  destruct (fs_file fs (path_join d "exit_status.log")) as [| |c]; [exact Hrest | intros H; discriminate H |].
  destruct (String.eqb (strip c) "0"); intros H; injection H as <-; discriminate.
Qed.

(** ** The reconciliation pass keeps the rows *)

Lemma update_where_keys (m : row -> bool) (f : row -> row) (rs : list row) :
  (forall r, row_key (f r) = row_key r) ->
  map row_key (update_where m f rs) = map row_key rs.
Proof.
  intros Hf. unfold update_where. rewrite map_map. apply map_ext.
  intros r. destruct (m r); [apply Hf | reflexivity].
Qed.

Lemma status_off_queue_rows cfg fs d b param st ns st' :
  status_off_queue cfg fs d b param st = Ok (ns, st') -> t_rows st' = t_rows st.
Proof.
  unfold status_off_queue. intros H.
  repeat match type of H with
  | (match ?x with _ => _ end) = Ok _ => destruct x eqn:?
  | (if ?c then _ else _) = Ok _ => destruct c eqn:?
  end; try discriminate; injection H as <- <-; reflexivity.
Qed.

Lemma check_row_keys cfg sc fs now queue job acc acc' :
  check_row cfg sc fs now queue job acc = Ok acc' ->
  map row_key (t_rows (pa_st acc')) = map row_key (t_rows (pa_st acc)).
Proof.
  unfold check_row. intros H. break_all.
  all: repeat match goal with H : status_off_queue _ _ _ _ _ _ = Ok (_, _) |- _ =>
                apply status_off_queue_rows in H end.
  all: repeat match goal with
         | H : (if ?c then _ else _) = (_, _) |- _ => destruct c
         | H : (let '(_, _) := ?p in _) = (_, _) |- _ => destruct p eqn:?
         | H : (_, _) = (_, _) |- _ => injection H; clear H; intros; subst
         end.
  all: simpl; repeat match goal with |- context[if ?c then _ else _] => destruct c end.
  all: cbn [t_rows add_failed with_rows].
  all: repeat rewrite update_where_keys by (intros; reflexivity).
  all: congruence.
Qed.

Lemma check_rows_keys cfg sc fs now queue jobs acc acc' :
  check_rows cfg sc fs now queue jobs acc = Ok acc' ->
  map row_key (t_rows (pa_st acc')) = map row_key (t_rows (pa_st acc)).
Proof.
  revert acc; induction jobs as [|j r IH]; intros acc H; simpl in H.
  - injection H as <-. reflexivity.
  - apply bind_ok in H. destruct H as [a [Ha H]].
    rewrite (IH _ H). eapply check_row_keys. exact Ha.
Qed.

(** Without parameter matrix, the reconciliation pass keeps the table's
    rows in place: the batch, job id, parameter combination and submission
    time of every row are unchanged, and no row is added or removed. *)
Theorem get_running_jobs_keeps_rows (cfg : tconfig) (sc : sched) (fs : fsnap) (now : Z)
    (st : tstate) (running : list (option string)) (st' : tstate) :
  tc_matrix cfg = false ->
  get_running_jobs cfg sc fs now st = Ok (running, st') ->
  map row_key (t_rows st') = map row_key (t_rows st).
Proof.
  intros Hm H. unfold get_running_jobs in H. rewrite Hm in H.
  apply bind_ok in H. destruct H as [queue [_ H]].
  apply bind_ok in H. destruct H as [acc [Hacc H]].
  apply check_rows_keys in Hacc. simpl in Hacc.
  destruct (existsb never_submitted_row (t_rows (pa_st acc))); cbn -[update_where] in H;
  [destruct (true) | destruct (pa_changes acc)]; injection H as _ <-; simpl;
  rewrite ?update_where_keys by (intros; reflexivity); exact Hacc.
Qed.


Lemma get_running_jobs_keeps_rows_witness :
  exists running st',
    get_running_jobs scenE_cfg (queue_sched [] 105) empty_fs 20 scenE_state = Ok (running, st') /\
    map row_key (t_rows st') = map row_key (t_rows scenE_state).
Proof.
  destruct (get_running_jobs scenE_cfg (queue_sched [] 105) empty_fs 20 scenE_state)
    as [[running st']|e] eqn:E; [|vm_compute in E; discriminate].
  exists running, st'. split; [reflexivity|].
  exact (get_running_jobs_keeps_rows scenE_cfg _ _ _ _ _ _ eq_refl E).
Defined.

(** ** Duplicate cleanup *)

Lemma nth_error_indexed_from (k : nat) (rows : list row) (i : nat) :
  nth_error (combine (seq k (List.length rows)) rows) i
  = option_map (fun r => ((k + i)%nat, r)) (nth_error rows i).
Proof.
  revert k i; induction rows as [|r rs IH]; intros k i; [destruct i; reflexivity|].
  destruct i as [|i]; simpl; [rewrite Nat.add_0_r; reflexivity|].
  rewrite IH. destruct (nth_error rs i); simpl; [|reflexivity].
  rewrite Nat.add_succ_r. reflexivity.
Qed.

Lemma nth_error_indexed (rows : list row) (i : nat) :
  nth_error (indexed rows) i = option_map (fun r => (i, r)) (nth_error rows i).
Proof. unfold indexed. apply nth_error_indexed_from. Qed.

Lemma in_indexed (rows : list row) (i : nat) (r : row) :
  In (i, r) (indexed rows) <-> nth_error rows i = Some r.
Proof.
  split.
  - intros H. apply In_nth_error in H. destruct H as [n Hn].
    rewrite nth_error_indexed in Hn.
    destruct (nth_error rows n) eqn:E; simpl in Hn; [|discriminate].
    injection Hn as -> ->. exact E.
  - intros H. apply (nth_error_In _ i). rewrite nth_error_indexed, H. reflexivity.
Qed.

Lemma nth_error_map_indexed (g : nat * row -> row) (rows : list row) (i : nat) :
  nth_error (map g (indexed rows)) i = option_map (fun r => g (i, r)) (nth_error rows i).
Proof.
  rewrite nth_error_map, nth_error_indexed. destruct (nth_error rows i); reflexivity.
Qed.

Lemma length_map_indexed (g : nat * row -> row) (rows : list row) :
  List.length (map g (indexed rows)) = List.length rows.
Proof. unfold indexed. rewrite length_map, length_combine, length_seq. lia. Qed.

Lemma clean_group_rows (now : Z) (k : Z * string) (rows : list row) :
  let active_jobs := filter (fun ir => (in_group k (snd ir) && is_active (snd ir))%bool)
                            (indexed rows) in
  exists keep : option nat,
    fst (fst (clean_group now k rows))
    = if Nat.ltb 1 (List.length active_jobs) then
        map (fun ir => if (existsb (fun ir' => Nat.eqb (fst ir') (fst ir)) active_jobs &&
                           negb (match keep with Some j => Nat.eqb (fst ir) j
                                                 | None => false end))%bool
                       then set_comp (Some now) (set_status "CANCELLED" (snd ir))
                       else snd ir) (indexed rows)
      else rows.
Proof.
  intros active_jobs. unfold clean_group. fold active_jobs.
  eexists. destruct (Nat.ltb 1 (List.length active_jobs)); reflexivity.
Qed.

Lemma cancelled_not_active (now : Z) (r : row) :
  is_active (set_comp (Some now) (set_status "CANCELLED" r)) = false.
Proof. reflexivity. Qed.

(** After a group is cleaned, an active row it holds is the row that
    was there before. *)
Lemma clean_group_shrinks (now : Z) (k : Z * string) (rows : list row) :
  let rows' := fst (fst (clean_group now k rows)) in
  List.length rows' = List.length rows /\
  (forall i r', nth_error rows' i = Some r' ->
     exists r, nth_error rows i = Some r /\ r_batch r' = r_batch r /\ r_param r' = r_param r /\
               (is_active r' = true -> r' = r)).
Proof.
  intros rows'. destruct (clean_group_rows now k rows) as [keep Hk].
  subst rows'. rewrite Hk. clear Hk.
  destruct (Nat.ltb 1 _).
  - split; [apply length_map_indexed|].
    intros i r' H. rewrite nth_error_map_indexed in H.
    destruct (nth_error rows i) as [r|]; simpl in H; [|discriminate].
    injection H as <-. exists r. split; [reflexivity|].
    destruct (_ && _)%bool; [split; [reflexivity | split; [reflexivity | discriminate]]|].
    repeat split.
  - split; [reflexivity|]. intros i r' H. exists r'. repeat split. exact H.
Qed.

Lemma at_most_one {A} (l : list A) (x y : A) :
  (List.length l <= 1)%nat -> In x l -> In y l -> x = y.
Proof.
  intros Hl Hx Hy. destruct l as [|a [|b l]]; simpl in *; [contradiction | | lia].
  destruct Hx as [<- | []], Hy as [<- | []]. reflexivity.
Qed.

Lemma clean_group_one_active (now : Z) (k : Z * string) (rows : list row) :
  let rows' := fst (fst (clean_group now k rows)) in
  forall i j r1 r2, nth_error rows' i = Some r1 -> nth_error rows' j = Some r2 ->
    (in_group k r1 && is_active r1)%bool = true ->
    (in_group k r2 && is_active r2)%bool = true -> i = j.
Proof.
  intros rows'. destruct (clean_group_rows now k rows) as [keep Hk].
  subst rows'. rewrite Hk. clear Hk.
  set (active_jobs := filter (fun ir => (in_group k (snd ir) && is_active (snd ir))%bool)
                             (indexed rows)).
  destruct (Nat.ltb 1 (List.length active_jobs)) eqn:El.
  - intros i j r1 r2 H1 H2 A1 A2.
    rewrite nth_error_map_indexed in H1, H2.
    destruct (nth_error rows i) as [s1|] eqn:E1; simpl in H1; [|discriminate].
    destruct (nth_error rows j) as [s2|] eqn:E2; simpl in H2; [|discriminate].
    injection H1 as H1. injection H2 as H2. simpl in H1, H2.
    assert (Hkeep : forall n s r, nth_error rows n = Some s ->
              (if (existsb (fun ir' => Nat.eqb (fst ir') n) active_jobs &&
                   negb (match keep with Some j => Nat.eqb n j | None => false end))%bool
               then set_comp (Some now) (set_status "CANCELLED" s) else s) = r ->
              (in_group k r && is_active r)%bool = true -> keep = Some n).
    { intros n s r Hs Hr Ha.
      destruct (existsb (fun ir' => Nat.eqb (fst ir') n) active_jobs &&
                negb (match keep with Some j => Nat.eqb n j | None => false end))%bool eqn:Ed.
      - subst r. apply andb_true_iff in Ha. destruct Ha as [_ Ha].
        rewrite cancelled_not_active in Ha. discriminate.
      - subst r.
        assert (Hin : existsb (fun ir' => Nat.eqb (fst ir') n) active_jobs = true).
        { apply existsb_exists. exists (n, s). split; [|apply Nat.eqb_refl].
          apply filter_In. split; [apply in_indexed; exact Hs | exact Ha]. }
        rewrite Hin in Ed. simpl in Ed.
        destruct keep as [m|]; [|discriminate].
        apply negb_false_iff, Nat.eqb_eq in Ed. subst m. reflexivity. }
    pose proof (Hkeep i s1 r1 E1 H1 A1) as K1.
    pose proof (Hkeep j s2 r2 E2 H2 A2) as K2.
    rewrite K1 in K2. injection K2 as K2. exact K2.
  - apply Nat.ltb_ge in El.
    intros i j r1 r2 H1 H2 A1 A2.
    assert (I1 : In (i, r1) active_jobs) by (apply filter_In; split; [apply in_indexed|]; assumption).
    assert (I2 : In (j, r2) active_jobs) by (apply filter_In; split; [apply in_indexed|]; assumption).
    pose proof (at_most_one _ _ _ El I1 I2) as E. injection E as E _. exact E.
Qed.

Lemma one_active_clean_group (now : Z) (k k' : Z * string) (rows : list row) :
  one_active k rows -> one_active k (fst (fst (clean_group now k' rows))).
Proof.
  intros Hu i j r1 r2 H1 H2 A1 A2.
  destruct (clean_group_shrinks now k' rows) as [_ Hs].
  destruct (Hs i r1 H1) as [s1 [E1 [_ [_ F1]]]].
  destruct (Hs j r2 H2) as [s2 [E2 [_ [_ F2]]]].
  apply andb_true_iff in A1 as A1'. apply andb_true_iff in A2 as A2'.
  rewrite (F1 (proj2 A1')) in A1. rewrite (F2 (proj2 A2')) in A2.
  exact (Hu i j s1 s2 E1 E2 A1 A2).
Qed.

Lemma clean_fold (now : Z) (ks : list (Z * string)) (acc : list row * list string * bool) :
  let res := fold_left (fun acc k =>
                          let '(rows, cs, pb) := acc in
                          let '(rows', cs', pb') := clean_group now k rows in
                          (rows', app cs cs', (pb || pb')%bool)) ks acc in
  (forall k, In k ks -> one_active k (fst (fst res))) /\
  (forall k, one_active k (fst (fst acc)) -> one_active k (fst (fst res))) /\
  (forall i r', nth_error (fst (fst res)) i = Some r' ->
     exists r, nth_error (fst (fst acc)) i = Some r /\
               r_batch r' = r_batch r /\ r_param r' = r_param r).
Proof.
  revert acc; induction ks as [|k ks IH]; intros [[rows cs] pb] res; subst res; simpl.
  - split; [tauto|]. split; [tauto|]. intros i r' H. exists r'. auto.
  - pose proof (clean_group_one_active now k rows) as Hk.
    pose proof (clean_group_shrinks now k rows) as [_ Hs].
    destruct (clean_group now k rows) as [[rows' cs'] pb'] eqn:Ec. simpl in Hk, Hs.
    assert (Hp : forall k0, one_active k0 rows -> one_active k0 rows').
    { intros k0 H0. pose proof (one_active_clean_group now k0 k rows H0) as X.
      rewrite Ec in X. exact X. }
    destruct (IH (rows', (cs ++ cs')%list, (pb || pb')%bool)) as [I1 [I2 I3]]. simpl in I1, I2, I3.
    split; [|split].
    + intros k0 [<- | Hin]; [apply I2; exact Hk | apply I1; exact Hin].
    + intros k0 H0. apply I2, Hp, H0.
    + intros i r' H. destruct (I3 i r' H) as [r1 [E1 [B1 P1]]].
      destruct (Hs i r1 E1) as [r [E [B [P _]]]]. exists r. split; [exact E | split; congruence].
Qed.

Lemma group_keys_complete (rows : list row) (r : row) (p : string) :
  In r rows -> r_param r = Some p -> In (r_batch r, p) (group_keys rows).
Proof.
  induction rows as [|r' rs IH]; intros Hin Hp; [destruct Hin|].
  simpl. destruct Hin as [<- | Hin].
  - rewrite Hp. left. reflexivity.
  - specialize (IH Hin Hp).
    destruct (r_param r') as [p'|]; [|exact IH].
    destruct (Z.eqb (r_batch r) (r_batch r') && String.eqb p p')%bool eqn:E.
    + apply andb_true_iff in E. destruct E as [E1 E2].
      apply Z.eqb_eq in E1. apply String.eqb_eq in E2. rewrite E1, E2. left. reflexivity.
    + right. apply filter_In. split; [exact IH|]. simpl. rewrite E. reflexivity.
Qed.

(** After [clean_job_status], two active (PENDING or RUNNING) rows with
    the same batch and the same non-missing parameter combination are the
    same row. *)
Theorem clean_job_status_one_active_per_group (now : Z) (st : tstate) :
  let st' := snd (clean_job_status now st) in
  forall i j r1 r2,
    nth_error (t_rows st') i = Some r1 -> nth_error (t_rows st') j = Some r2 ->
    is_active r1 = true -> is_active r2 = true ->
    r_batch r1 = r_batch r2 -> r_param r1 = r_param r2 -> r_param r1 <> None -> i = j.
Proof.
  intros st' i j r1 r2 H1 H2 A1 A2 Eb Ep Hn. subst st'.
  unfold clean_job_status in H1, H2.
  destruct (t_rows st) as [|r0 rs] eqn:Ers.
  - simpl in H1. rewrite Ers in H1. destruct i; discriminate.
  - pose proof (clean_fold now (group_keys (r0 :: rs)) (r0 :: rs, [], false)) as [I1 [_ I3]].
    destruct (fold_left _ (group_keys (r0 :: rs)) (r0 :: rs, [], false))
      as [[rows cs] pb] eqn:Ef.
    simpl in I1, I3.
    assert (Hr : forall n r, nth_error (t_rows (snd (List.length cs, cs,
                   if pb then save_job_status (with_rows st rows) else with_rows st rows))) n
                   = Some r -> nth_error rows n = Some r)
      by (intros n r; destruct pb; simpl; auto).
    apply Hr in H1, H2. clear Hr.
    destruct (r_param r1) as [p|] eqn:Ep1; [|contradiction].
    destruct (I3 i r1 H1) as [r [E [B P]]].
    assert (Hk : In (r_batch r1, p) (group_keys (r0 :: rs))).
    { rewrite B. apply group_keys_complete; [|congruence].
      apply nth_error_In in E. exact E. }
    apply (I1 _ Hk i j r1 r2 H1 H2).
    + unfold in_group. simpl. rewrite Z.eqb_refl, Ep1. simpl.
      rewrite String.eqb_refl, A1. reflexivity.
    + unfold in_group. simpl. rewrite Eb, Z.eqb_refl, <- Ep. simpl.
      rewrite String.eqb_refl, A2. reflexivity.
Qed.

Lemma clean_job_status_one_active_per_group_witness :
  nth_error (t_rows (snd (clean_job_status 50 dup_param_state))) 0
    = Some (mk_row 1 (Some "101") (Some "B1_T298") "PENDING" (Some 10) None (Some "pending")) /\
  map r_status (t_rows (snd (clean_job_status 50 dup_param_state)))
    = ["PENDING"; "CANCELLED"; "CANCELLED"] /\
  0%nat = 0%nat.
Proof.
  split; [vm_compute; reflexivity|]. split; [vm_compute; reflexivity|].
  apply (clean_job_status_one_active_per_group 50 dup_param_state 0 0
           (mk_row 1 (Some "101") (Some "B1_T298") "PENDING" (Some 10) None (Some "pending"))
           (mk_row 1 (Some "101") (Some "B1_T298") "PENDING" (Some 10) None (Some "pending")));
    [vm_compute; reflexivity | vm_compute; reflexivity | reflexivity | reflexivity
    | reflexivity | reflexivity | discriminate].
Defined.

Lemma get_next_batch_id_choice_witness :
  get_next_batch_id scenE_cfg scenE_state = 4 /\
  batch_has scenE_state ["FAILED"; "CANCELLED"] (get_next_batch_id scenE_cfg scenE_state) = true.
Proof.
  split; [vm_compute; reflexivity|].
  apply (proj2 (proj2 (get_next_batch_id_choice scenE_cfg scenE_state))); [reflexivity|].
  exists 4. split; [|vm_compute; reflexivity].
  vm_compute. right; right; right; left; reflexivity.
Defined.

Lemma mark_jobs_for_resubmission_effect_witness :
  batch_has (mark_jobs_for_resubmission scenE_cfg 4 scenE_state) ["FAILED"; "CANCELLED"] 4 = false.
Proof.
  exact (proj1 (proj2 (mark_jobs_for_resubmission_effect scenE_cfg 4 scenE_state)) eq_refl).
Defined.

Lemma submit_job_returned_id_witness :
  Typed.submit_job (simple_cfg 2 false) (queue_sched [] 101) empty_fs []
    (Some "/scripts/job_batch_1.sh") true false 1 = Ok (Some "101", [("101", 1)], true) /\
  (("101" = "dry-run" /\ false = true /\ [("101", 1)] = [] /\ true = false) \/
   (false = false /\ int_ok "101" = true /\ [("101", 1)] = Typed.dict_set [] "101" 1)).
Proof.
  assert (H : Typed.submit_job (simple_cfg 2 false) (queue_sched [] 101) empty_fs []
                (Some "/scripts/job_batch_1.sh") true false 1
              = Ok (Some "101", [("101", 1)], true))
    by (vm_compute; reflexivity).
  split; [exact H|].
  exact (submit_job_returned_id _ _ _ _ _ _ _ _ _ _ _ H).
Defined.

Lemma get_job_status_nonempty_witness :
  get_job_status (queue_sched ["101"] 102) empty_fs "101" None = Ok "PENDING" /\
  "PENDING" <> "".
Proof.
  assert (H : get_job_status (queue_sched ["101"] 102) empty_fs "101" None = Ok "PENDING")
    by (vm_compute; reflexivity).
  split; [exact H|].
  exact (get_job_status_nonempty _ _ _ _ _ H).
Defined.
